(** * phonebook-api: a shallow embedding of [server.js]

    The server is an Express application over a single SQLite table
    [contacts(id TEXT PRIMARY KEY, name TEXT NOT NULL, phone TEXT NOT NULL,
    email TEXT DEFAULT '')], reached through prepared statements of the
    better-sqlite3 driver.  The embedding has three layers:

    - JavaScript values as they come out of [express.json()], with the
      language's truthiness, destructuring and default-value rules;
    - the driver and the table: parameter binding, column affinity, the
      NOT NULL and PRIMARY KEY constraints, and the five prepared statements,
      as computations in a state-and-exception monad over the table;
    - the route handlers and the start-up seeding, written line by line after
      the source.

    [uuid()] is random; every identifier it draws is an explicit argument. *)

From Stdlib Require Import List String Ascii Bool Arith NArith Lia PrimFloat.
From Stdlib Require Import Sorting.Sorted Sorting.Permutation.
Import ListNotations.
Local Open Scope string_scope.
Local Open Scope list_scope.

(* ================================================================= *)
(** ** JavaScript values *)

#[local] Set Warnings "-register-all".

(** A value of a parsed JSON body.  [JUndefined] is what reading an absent
    property gives; JSON text itself never contains it.  Numbers are IEEE
    doubles.  An object keeps its properties in source order. *)
Inductive jsvalue : Type :=
| JUndefined
| JNull
| JBool (b : bool)
| JNum (f : float)
| JStr (s : string)
| JArr (elems : list jsvalue)
| JObj (props : list (string * jsvalue)).

(** ToBoolean: the test behind [!x] and [x || y]. *)
Definition to_boolean (v : jsvalue) : bool :=
  match v with
  | JUndefined | JNull => false
  | JBool b => b
  | JNum f => negb (PrimFloat.is_zero f || PrimFloat.is_nan f)
  | JStr s => negb (s =? "")
  | JArr _ | JObj _ => true
  end.

(** [a || b] *)
Definition js_or (a b : jsvalue) : jsvalue :=
  if to_boolean a then a else b.

(** Own property of an object literal; a later duplicate key wins, as in
    [JSON.parse]. *)
Fixpoint own_prop (k : string) (props : list (string * jsvalue))
  : option jsvalue :=
  match props with
  | [] => None
  | (k', v) :: rest =>
      match own_prop k rest with
      | Some w => Some w
      | None => if k' =? k then Some v else None
      end
  end.

(** Exceptions that the handlers can meet. *)
Inductive exn : Type :=
| TypeError
| RangeError
| SqliteError.

(** Pure computations that may throw. *)
Definition res (A : Type) : Type := (exn + A)%type.

(** [v.k] for the keys the handlers read ([name], [phone], [email]): only an
    object can own them, nothing on the prototype chain of arrays, strings,
    numbers or booleans is called so; reading from [undefined] or [null]
    throws. *)
Definition get_prop (v : jsvalue) (k : string) : res jsvalue :=
  match v with
  | JUndefined | JNull => inl TypeError
  | JObj props =>
      match own_prop k props with
      | Some w => inr w
      | None => inr JUndefined
      end
  | _ => inr JUndefined
  end.

(** A destructuring default [k = d]: used only when the property reads
    [undefined]. *)
Definition with_default (v d : jsvalue) : jsvalue :=
  match v with
  | JUndefined => d
  | _ => v
  end.

(** The fields pulled out of a body by
    [const { name, phone, email = '' } = req.body || {}]. *)
Record fields : Type := mkFields {
  f_name : jsvalue;
  f_phone : jsvalue;
  f_email : jsvalue
}.

Definition destructure (req_body : jsvalue) : res fields :=
  let src := js_or req_body (JObj []) in
  match get_prop src "name", get_prop src "phone", get_prop src "email" with
  | inr n, inr p, inr e => inr (mkFields n p (with_default e (JStr "")))
  | inl x, _, _ => inl x
  | _, inl x, _ => inl x
  | _, _, inl x => inl x
  end.

(* ================================================================= *)
(** ** The table *)

(** A row of [contacts].  [name] and [phone] are NOT NULL text, [email] is
    nullable; [id] is the primary key. *)
Record contact : Type := mkContact {
  id : string;
  name : string;
  phone : string;
  email : option string
}.

(** The table, rows in rowid (insertion) order. *)
Definition table : Type := list contact.

Definition has_id (i : string) (r : contact) : bool := id r =? i.

(** Values the driver hands to SQLite. *)
Inductive sqlvalue : Type :=
| SNull
| SReal (f : float)
| SText (s : string).

(** Statements run against the table and may throw: state and exception. *)
Definition M (A : Type) : Type := table -> res A * table.

Definition ret {A} (a : A) : M A := fun db => (inr a, db).

Definition throw {A} (e : exn) : M A := fun db => (inl e, db).

Definition bind {A B} (c : M A) (k : A -> M B) : M B :=
  fun db =>
    match c db with
    | (inr a, db') => k a db'
    | (inl e, db') => (inl e, db')
    end.

Definition lift {A} (r : res A) : M A :=
  fun db => (r, db).

Notation "x <- c ;; k" := (bind c (fun x => k))
  (at level 61, c at next level, right associativity).
Notation "c ;;; k" := (bind c (fun _ => k))
  (at level 61, right associativity).

(* ================================================================= *)
(** ** The driver: binding parameters *)

(** One value for one placeholder: numbers, strings and null/undefined are
    accepted, anything else is a TypeError ("SQLite3 can only bind numbers,
    strings, bigints, buffers, and null"). *)
Definition bind_value (v : jsvalue) : res sqlvalue :=
  match v with
  | JNum f => inr (SReal f)
  | JStr s => inr (SText s)
  | JNull | JUndefined => inr SNull
  | JBool _ | JArr _ | JObj _ => inl TypeError
  end.

(** An array argument supplies its elements to the following anonymous
    placeholders, one by one. *)
Fixpoint bind_array (elems : list jsvalue) : res (list sqlvalue) :=
  match elems with
  | [] => inr []
  | v :: rest =>
      match bind_value v with
      | inl e => inl e
      | inr x =>
          match bind_array rest with
          | inl e => inl e
          | inr xs => inr (x :: xs)
          end
      end
  end.

(** The arguments of [run]/[get], left to right.  An array is spread over
    the next anonymous placeholders (for the driver [run('John', 'Smith', 45)],
    [run(['John', 'Smith', 45])] and [run(['John'], ['Smith', 45])] are the
    same call), a plain object is taken as the bag of named parameters (at
    most one is allowed; the statements here have no named placeholder, so it
    fills nothing), any other value fills the next placeholder. *)
Fixpoint bind_args (args : list jsvalue) (bound_object : bool)
  : res (list sqlvalue) :=
  match args with
  | [] => inr []
  | JArr elems :: rest =>
      match bind_array elems with
      | inl e => inl e
      | inr xs =>
          match bind_args rest bound_object with
          | inl e => inl e
          | inr ys => inr (xs ++ ys)
          end
      end
  | JObj _ :: rest =>
      if bound_object then inl TypeError else bind_args rest true
  | v :: rest =>
      match bind_value v with
      | inl e => inl e
      | inr x =>
          match bind_args rest bound_object with
          | inl e => inl e
          | inr ys => inr (x :: ys)
          end
      end
  end.

(** Binding for a statement with [n] placeholders: too few or too many values
    is a RangeError. *)
Definition bind_parameters (n : nat) (args : list jsvalue)
  : res (list sqlvalue) :=
  match bind_args args false with
  | inl e => inl e
  | inr vs => if (List.length vs =? n)%nat then inr vs else inl RangeError
  end.

(* ================================================================= *)
(** ** SQLite: affinity, constraints and the prepared statements *)

Section Server.

(** The text SQLite produces when a REAL lands in a column of TEXT affinity
    (its [%!.15g] rendering).  The rendering is the engine's business; the
    server never looks inside it. *)
Variable real_to_text : float -> string.

(** A value stored in, or compared with, a TEXT column: NULL stays NULL,
    numbers are turned into text, text is kept. *)
Definition text_affinity (v : sqlvalue) : option string :=
  match v with
  | SNull => None
  | SReal f => Some (real_to_text f)
  | SText s => Some s
  end.

(** A placeholder left without a value reads NULL. *)
Definition param (k : nat) (vs : list sqlvalue) : sqlvalue :=
  nth k vs SNull.

(** [ORDER BY name]: ascending, bytewise comparison (the BINARY collation).
    Rows of equal name keep their rowid order. *)
Fixpoint insert_by_name (r : contact) (l : list contact) : list contact :=
  match l with
  | [] => [r]
  | x :: t =>
      if (name r <=? name x)%string then r :: l
      else x :: insert_by_name r t
  end.

Definition order_by_name (db : table) : list contact :=
  fold_right insert_by_name [] db.

(** [stmtAll]: SELECT id, name, phone, email FROM contacts ORDER BY name *)
Definition stmtAll_all : M (list contact) :=
  fun db => (inr (order_by_name db), db).

(** [stmtGet]: SELECT id, name, phone, email FROM contacts WHERE id = ?
    [get] gives the first row found, or [undefined]. *)
Definition stmtGet_get (i : string) : M (option contact) :=
  fun db => (inr (find (has_id i) db), db).

(** [stmtAdd]: INSERT INTO contacts(id, name, phone, email) VALUES (?, ?, ?, ?)
    The first argument at every call site is a string, so it fills the first
    placeholder with itself.  NOT NULL on [name] and [phone] and the primary
    key on [id] abort the statement and leave the table as it was. *)
Definition stmtAdd_run (i : string) (n p e : jsvalue) : M unit :=
  vs <- lift (bind_parameters 4 [JStr i; n; p; e]) ;;
  match text_affinity (param 1 vs), text_affinity (param 2 vs) with
  | Some n', Some p' =>
      fun db =>
        if existsb (has_id i) db then (inl SqliteError, db)
        else (inr tt, db ++ [mkContact i n' p' (text_affinity (param 3 vs))])
  | _, _ => throw SqliteError
  end.

(** [stmtUpd]: UPDATE contacts SET name = ?, phone = ?, email = ? WHERE id = ?
    Every row whose id equals the fourth value is rewritten; NOT NULL is
    checked only if some row is. *)
Definition stmtUpd_run (n p e : jsvalue) (i : string) : M unit :=
  vs <- lift (bind_parameters 4 [n; p; e; JStr i]) ;;
  fun db =>
    let hit (r : contact) : bool :=
      match text_affinity (param 3 vs) with
      | Some w => id r =? w
      | None => false
      end in
    if existsb hit db then
      match text_affinity (param 0 vs), text_affinity (param 1 vs) with
      | Some n', Some p' =>
          (inr tt,
           map (fun r =>
                  if hit r
                  then mkContact (id r) n' p' (text_affinity (param 2 vs))
                  else r) db)
      | _, _ => (inl SqliteError, db)
      end
    else (inr tt, db).

(** [stmtDel]: DELETE FROM contacts WHERE id = ?
    The result is [info.changes], the number of rows removed. *)
Definition stmtDel_run (i : string) : M nat :=
  fun db =>
    (inr (List.length (filter (has_id i) db)),
     filter (fun r => negb (has_id i r)) db).

(* ================================================================= *)
(** ** Start-up: seeding *)

(** [if (rowCount === 0) { seed.run(uuid(), ...); seed.run(uuid(), ...) }]
    [u1] and [u2] are the two identifiers drawn. *)
Definition seed_contacts (u1 u2 : string) : M unit :=
  fun db =>
    if (List.length db =? 0)%nat then
      (stmtAdd_run u1 (JStr "Ron Levi") (JStr "050-111-2233")
                   (JStr "ron@example.com") ;;;
       stmtAdd_run u2 (JStr "Marine Azulay") (JStr "052-444-5566")
                   (JStr "marine@example.com")) db
    else (inr tt, db).

(* ================================================================= *)
(** ** The HTTP layer *)

(** What a response carries. *)
Inductive payload : Type :=
| NoBody
| JsonInfo
| JsonError (msg : string)
| JsonContact (c : option contact)
| JsonContacts (l : list contact)
| ParseFailure
| InternalError.

Record response : Type := mkResponse {
  status : nat;
  body : payload
}.

(** GET / *)
Definition get_root : M response :=
  ret (mkResponse 200 JsonInfo).

(** GET /contacts *)
Definition get_contacts : M response :=
  rows <- stmtAll_all ;;
  ret (mkResponse 200 (JsonContacts rows)).

Definition required_msg : string := "Name and phone are required.".
Definition not_found_msg : string := "Contact not found.".

(** POST /contacts; [uuid] is the identifier [uuid()] returns. *)
Definition post_contacts (uuid : string) (req_body : jsvalue) : M response :=
  f <- lift (destructure req_body) ;;
  if negb (to_boolean (f_name f)) || negb (to_boolean (f_phone f)) then
    ret (mkResponse 400 (JsonError required_msg))
  else
    stmtAdd_run uuid (f_name f) (f_phone f) (f_email f) ;;;
    created <- stmtGet_get uuid ;;
    ret (mkResponse 201 (JsonContact created)).

(** PUT /contacts/:id *)
Definition put_contact (i : string) (req_body : jsvalue) : M response :=
  f <- lift (destructure req_body) ;;
  if negb (to_boolean (f_name f)) || negb (to_boolean (f_phone f)) then
    ret (mkResponse 400 (JsonError required_msg))
  else
    before <- stmtGet_get i ;;
    match before with
    | None => ret (mkResponse 404 (JsonError not_found_msg))
    | Some _ =>
        stmtUpd_run (f_name f) (f_phone f) (f_email f) i ;;;
        updated <- stmtGet_get i ;;
        ret (mkResponse 200 (JsonContact updated))
    end.

(** DELETE /contacts/:id *)
Definition delete_contact (i : string) : M response :=
  changes <- stmtDel_run i ;;
  if (changes =? 0)%nat then ret (mkResponse 404 (JsonError not_found_msg))
  else ret (mkResponse 204 NoBody).

(** Express runs a handler and answers 500 when it throws. *)
Definition run_route (h : M response) (db : table) : response * table :=
  match h db with
  | (inr r, db') => (r, db')
  | (inl _, db') => (mkResponse 500 InternalError, db')
  end.

(** The body of a request as [express.json()] meets it: none to parse, text
    that is not JSON, or text that parses to a value. *)
Inductive raw_body : Type :=
| BodyAbsent
| BodyMalformed
| BodyParsed (v : jsvalue).

(** [express.json()]: no body leaves [req.body] unset; malformed text, and
    in strict mode any top-level value that is not an object or array, ends
    the request with the parser's 400. *)
Definition express_json (b : raw_body) : response + jsvalue :=
  match b with
  | BodyAbsent => inr JUndefined
  | BodyMalformed => inl (mkResponse 400 ParseFailure)
  | BodyParsed (JObj props) => inr (JObj props)
  | BodyParsed (JArr elems) => inr (JArr elems)
  | BodyParsed _ => inl (mkResponse 400 ParseFailure)
  end.

Inductive route : Type :=
| GetRoot
| GetContacts
| PostContacts
| PutContact (i : string)
| DeleteContact (i : string).

(** The application: middleware, then the route's handler. *)
Definition app (uuid : string) (r : route) (b : raw_body) (db : table)
  : response * table :=
  match express_json b with
  | inl resp => (resp, db)
  | inr req_body =>
      run_route
        match r with
        | GetRoot => get_root
        | GetContacts => get_contacts
        | PostContacts => post_contacts uuid req_body
        | PutContact i => put_contact i req_body
        | DeleteContact i => delete_contact i
        end db
  end.

End Server.

(* ================================================================= *)
(** ** Vocabulary of the statements *)

(** The value of property [k] of a body, [JUndefined] when there is none. *)
Definition prop_of (v : jsvalue) (k : string) : jsvalue :=
  match v with
  | JObj props =>
      match own_prop k props with
      | Some w => w
      | None => JUndefined
      end
  | _ => JUndefined
  end.

(** The field [k] of the JSON body a request carries. *)
Definition field (b : raw_body) (k : string) : jsvalue :=
  match b with
  | BodyParsed v => prop_of v k
  | BodyAbsent | BodyMalformed => JUndefined
  end.

(** A field that is missing or empty: absent, [null], the empty string, and
    the other values JavaScript counts as false. *)
Definition missing_or_empty (v : jsvalue) : Prop := to_boolean v = false.

(** A request body without a usable [name] or [phone]. *)
Definition invalid_body (b : raw_body) : Prop :=
  match b with
  | BodyAbsent | BodyMalformed => True
  | BodyParsed _ =>
      missing_or_empty (field b "name") \/ missing_or_empty (field b "phone")
  end.

(** Some row of the table has identifier [i]. *)
Definition present (i : string) (db : table) : Prop := In i (map id db).

(** The invariant of the data model: identifiers are unique, and no stored
    row has an empty [name] or [phone]. *)
Definition store_invariant (db : table) : Prop :=
  NoDup (map id db) /\
  Forall (fun r => name r <> "" /\ phone r <> "") db.

(** Ascending bytewise order on names. *)
Definition name_le (a b : contact) : Prop := (name a <=? name b) = true.

(** An [email] field the driver can bind as one value. *)
Definition storable (e : jsvalue) : Prop :=
  match e with
  | JBool _ | JArr _ | JObj _ => False
  | _ => True
  end.

(** A field that is absent, [null], a boolean or a string: not a number and
    not a composite value. *)
Definition textual (v : jsvalue) : Prop :=
  match v with
  | JUndefined | JNull | JBool _ | JStr _ => True
  | JNum _ | JArr _ | JObj _ => False
  end.

(** The two rows written at first start. *)
Definition ron (u : string) : contact :=
  mkContact u "Ron Levi" "050-111-2233" (Some "ron@example.com").

Definition marine (u : string) : contact :=
  mkContact u "Marine Azulay" "052-444-5566" (Some "marine@example.com").

(** Request bodies used as running examples. *)
Definition body_A_1 : raw_body :=
  BodyParsed (JObj [("name", JStr "A"); ("phone", JStr "1")]).

Definition body_no_name : raw_body :=
  BodyParsed (JObj [("phone", JStr "1")]).

Definition body_null_email : raw_body :=
  BodyParsed (JObj [("name", JStr "A"); ("phone", JStr "1");
                    ("email", JNull)]).

Definition body_zed : raw_body :=
  BodyParsed (JObj [("name", JStr "Zed"); ("phone", JStr "2")]).

Definition body_amy : raw_body :=
  BodyParsed (JObj [("name", JStr "Amy"); ("phone", JStr "3")]).

Definition body_array_name : raw_body :=
  BodyParsed (JObj [("name", JArr [JStr ""]); ("phone", JStr "1")]).

Section Expected.

Variable real_to_text : float -> string.

(** What the [email] column holds for a storable [email] field. *)
Definition expected_email (e : jsvalue) : option string :=
  match e with
  | JUndefined => Some ""
  | JStr s => Some s
  | JNum f => Some (real_to_text f)
  | _ => None
  end.

(** PUT rewrites the rows of identifier [i] and keeps the others. *)
Definition rewrite_rows (i n p : string) (e : option string) (db : table)
  : table :=
  map (fun r => if has_id i r then mkContact (id r) n p e else r) db.

End Expected.

(* ================================================================= *)
(** ** Process life cycle *)

(** [const PORT = process.env.PORT || 3001]; an environment variable is a
    string when it is set. *)
Definition PORT (env_port : option string) : jsvalue :=
  js_or match env_port with
        | Some s => JStr s
        | None => JUndefined
        end
        (JNum 3001%float).

(** [CREATE TABLE IF NOT EXISTS contacts(...)] on the database file: a file
    without the table ([None]) gets an empty one, an existing table is left
    as it is. *)
Definition create_table_if_not_exists (file : option table) : table :=
  match file with
  | Some rows => rows
  | None => []
  end.

(** One request as the server meets it; [rq_uuid] is what [uuid()] returns
    if the handler calls it. *)
Record request : Type := mkRequest {
  rq_uuid : string;
  rq_route : route;
  rq_body : raw_body
}.

Section Lifecycle.

Variable real_to_text : float -> string.

(** Module start: the table is ensured, then seeded if it has no row. *)
Definition startup (u1 u2 : string) (file : option table) : res unit * table :=
  seed_contacts real_to_text u1 u2 (create_table_if_not_exists file).

(** [app.listen]: requests are handled one after the other, each handler
    running to its end on the table the previous one left. *)
Fixpoint serve (reqs : list request) (db : table) : list response * table :=
  match reqs with
  | [] => ([], db)
  | rq :: rest =>
      let (r, db1) := app real_to_text (rq_uuid rq) (rq_route rq)
                          (rq_body rq) db in
      let (rs, db2) := serve rest db1 in
      (r :: rs, db2)
  end.

End Lifecycle.

(* ================================================================= *)
(** ** Basic facts *)

Lemma to_boolean_false_iff (v : jsvalue) :
  to_boolean v = false <->
  v = JUndefined \/ v = JNull \/ v = JBool false \/ v = JStr "" \/
  exists f, v = JNum f /\ (PrimFloat.is_zero f || PrimFloat.is_nan f) = true.
Proof.
  split.
  - destruct v as [| |b|f|s|l|l]; simpl; intros H; try discriminate; auto.
    + destruct b; [discriminate|]. auto.
    + right; right; right; right. exists f. split; [reflexivity|].
      now apply negb_false_iff in H.
    + apply negb_false_iff, String.eqb_eq in H. subst. auto.
  - intros [->|[->|[->|[->|(f & -> & H)]]]]; simpl; try reflexivity.
    now rewrite H.
Qed.

Lemma to_boolean_str (s : string) : s <> "" -> to_boolean (JStr s) = true.
Proof.
  intros H. simpl. apply negb_true_iff. now apply String.eqb_neq.
Qed.

Lemma has_id_true (i : string) (r : contact) : has_id i r = true <-> id r = i.
Proof. unfold has_id. apply String.eqb_eq. Qed.

Lemma has_id_false (i : string) (r : contact) :
  has_id i r = false <-> id r <> i.
Proof. unfold has_id. apply String.eqb_neq. Qed.

Lemma find_absent (i : string) (db : table) :
  find (has_id i) db = None <-> ~ present i db.
Proof.
  unfold present. induction db as [|r db IH]; simpl.
  - tauto.
  - destruct (has_id i r) eqn:E.
    + apply has_id_true in E. split; [discriminate|]. intros H. tauto.
    + apply has_id_false in E. rewrite IH. tauto.
Qed.

Lemma find_present (i : string) (db : table) :
  present i db -> exists r, find (has_id i) db = Some r /\ id r = i.
Proof.
  intros H. destruct (find (has_id i) db) as [r|] eqn:E.
  - exists r. split; [reflexivity|].
    apply find_some in E. now apply has_id_true.
  - now apply find_absent in E.
Qed.

Lemma existsb_present (i : string) (db : table) :
  existsb (has_id i) db = true <-> present i db.
Proof.
  unfold present. rewrite existsb_exists, in_map_iff.
  split; intros (r & H1 & H2).
  - exists r. split; [now apply has_id_true | assumption].
  - exists r. split; [assumption | now apply has_id_true].
Qed.

Lemma existsb_absent (i : string) (db : table) :
  ~ present i db -> existsb (has_id i) db = false.
Proof.
  intros H. destruct (existsb (has_id i) db) eqn:E; [|reflexivity].
  now apply existsb_present in E.
Qed.

(** Destructuring never throws, and yields the body's fields. *)
Lemma destructure_fields (v : jsvalue) :
  destructure v =
  inr (mkFields (prop_of v "name") (prop_of v "phone")
                (with_default (prop_of v "email") (JStr ""))).
Proof.
  unfold destructure, js_or.
  destruct (to_boolean v) eqn:E.
  - destruct v; simpl in *; try discriminate; try reflexivity.
    destruct (own_prop "name" props), (own_prop "phone" props),
      (own_prop "email" props); reflexivity.
  - apply to_boolean_false_iff in E.
    destruct E as [->|[->|[->|[->|(f & -> & _)]]]]; reflexivity.
Qed.

(** What passes the JSON middleware keeps its fields. *)
Lemma express_json_field (b : raw_body) (v : jsvalue) :
  express_json b = inr v ->
  forall k, prop_of v k = field b k.
Proof.
  destruct b as [| |w]; simpl; try discriminate.
  - intros [= <-]. reflexivity.
  - destruct w; try discriminate; intros [= <-]; reflexivity.
Qed.

(** A body with a field that is not [undefined] passes the middleware. *)
Lemma express_json_accepts (b : raw_body) (k : string) :
  field b k <> JUndefined -> exists v, express_json b = inr v.
Proof.
  destruct b as [| |w]; simpl; try congruence.
  destruct w; simpl; try congruence; eauto.
Qed.

Lemma invalid_body_fields (b : raw_body) :
  invalid_body b ->
  negb (to_boolean (field b "name")) || negb (to_boolean (field b "phone"))
  = true.
Proof.
  unfold invalid_body, missing_or_empty.
  destruct b as [| |v]; try reflexivity.
  intros [H|H]; rewrite H; simpl; [reflexivity | apply orb_true_r].
Qed.

(** The only answer the JSON middleware gives by itself is its 400. *)
Lemma express_json_rejects (b : raw_body) (r : response) :
  express_json b = inl r -> r = mkResponse 400 ParseFailure.
Proof.
  destruct b as [| |v]; simpl; try discriminate.
  - now intros [= <-].
  - destruct v; try discriminate; now intros [= <-].
Qed.

(* ================================================================= *)
(** ** Validation (C1, C9) *)

(** C1. A POST /contacts whose body is missing, malformed, or has a missing
    or empty [name] or [phone] is answered with status 400, and the table is
    left exactly as it was: no row is created and the listing served after
    the request is the listing served before it. *)
Theorem post_invalid_rejected
  (rtt : float -> string) (uuid : string) (b : raw_body) (db : table) :
  invalid_body b ->
  status (fst (app rtt uuid PostContacts b db)) = 400 /\
  snd (app rtt uuid PostContacts b db) = db /\
  List.length (snd (app rtt uuid PostContacts b db)) = List.length db /\
  run_route get_contacts (snd (app rtt uuid PostContacts b db))
  = run_route get_contacts db.
Proof.
  intros Hb.
  assert (H : status (fst (app rtt uuid PostContacts b db)) = 400 /\
              snd (app rtt uuid PostContacts b db) = db).
  { unfold app. destruct (express_json b) as [r|v] eqn:E.
    - apply express_json_rejects in E. subst r. split; reflexivity.
    - unfold run_route, post_contacts, bind, lift.
      rewrite destructure_fields. cbn [f_name f_phone f_email].
      rewrite !(express_json_field b v E).
      rewrite (invalid_body_fields b Hb). split; reflexivity. }
  destruct H as [H1 H2]. rewrite H2. repeat split; assumption.
Qed.

(** C9. A PUT /contacts/:id whose body has a missing or empty [name] or
    [phone] is answered with 400 whatever the identifier, present in the
    table or not: the fields are checked before the row is looked up, so the
    answer is never 404, and the table is untouched. *)
Theorem put_invalid_rejected
  (rtt : float -> string) (uuid i : string) (b : raw_body) (db : table) :
  invalid_body b ->
  status (fst (app rtt uuid (PutContact i) b db)) = 400 /\
  status (fst (app rtt uuid (PutContact i) b db)) <> 404 /\
  snd (app rtt uuid (PutContact i) b db) = db.
Proof.
  intros Hb.
  assert (H : status (fst (app rtt uuid (PutContact i) b db)) = 400 /\
              snd (app rtt uuid (PutContact i) b db) = db).
  { unfold app. destruct (express_json b) as [r|v] eqn:E.
    - apply express_json_rejects in E. subst r. split; reflexivity.
    - unfold run_route, put_contact, bind, lift.
      rewrite destructure_fields. cbn [f_name f_phone f_email].
      rewrite !(express_json_field b v E).
      rewrite (invalid_body_fields b Hb). split; reflexivity. }
  destruct H as [H1 H2]. rewrite H1. repeat split; [discriminate | assumption].
Qed.

(* ================================================================= *)
(** ** The driver on the handlers' argument lists *)

(** A value that is neither an array nor an object fills one placeholder. *)
Lemma bind_args_scalar (v : jsvalue) (rest : list jsvalue) (bo : bool)
  (x : sqlvalue) :
  bind_value v = inr x ->
  bind_args (v :: rest) bo =
  match bind_args rest bo with
  | inl e => inl e
  | inr ys => inr (x :: ys)
  end.
Proof.
  destruct v; simpl; intros H; try discriminate;
    injection H as <-; reflexivity.
Qed.

(** A string passed last is bound last, whatever precedes it. *)
Lemma bind_args_last (i : string) (args : list jsvalue) :
  forall (bo : bool) (vs : list sqlvalue),
    bind_args (args ++ [JStr i]) bo = inr vs ->
    exists vs', vs = vs' ++ [SText i].
Proof.
  induction args as [|a args IH]; intros bo vs H.
  - simpl in H. injection H as <-. now exists [].
  - destruct a as [| |b|f|s|l|l]; simpl in H; try discriminate.
    + destruct (bind_args (args ++ [JStr i]) bo) as [|ys] eqn:E;
        [discriminate|]. injection H as <-.
      destruct (IH _ _ E) as [vs' ->]. now exists (SNull :: vs').
    + destruct (bind_args (args ++ [JStr i]) bo) as [|ys] eqn:E;
        [discriminate|]. injection H as <-.
      destruct (IH _ _ E) as [vs' ->]. now exists (SNull :: vs').
    + destruct (bind_args (args ++ [JStr i]) bo) as [|ys] eqn:E;
        [discriminate|]. injection H as <-.
      destruct (IH _ _ E) as [vs' ->]. now exists (SReal f :: vs').
    + destruct (bind_args (args ++ [JStr i]) bo) as [|ys] eqn:E;
        [discriminate|]. injection H as <-.
      destruct (IH _ _ E) as [vs' ->]. now exists (SText s :: vs').
    + destruct (bind_array l) as [|xs]; [discriminate|].
      destruct (bind_args (args ++ [JStr i]) bo) as [|ys] eqn:E;
        [discriminate|]. injection H as <-.
      destruct (IH _ _ E) as [vs' ->]. exists (xs ++ vs').
      now rewrite app_assoc.
    + destruct bo; [discriminate|]. exact (IH _ _ H).
Qed.

(** In [stmtUpd.run(name, phone, email, id)] the WHERE placeholder always
    receives the route's identifier. *)
Lemma bind_update_where (n p e : jsvalue) (i : string) (vs : list sqlvalue) :
  bind_parameters 4 [n; p; e; JStr i] = inr vs ->
  param 3 vs = SText i.
Proof.
  unfold bind_parameters.
  destruct (bind_args [n; p; e; JStr i] false) as [|ws] eqn:E;
    [discriminate|].
  destruct (Nat.eqb_spec (List.length ws) 4) as [L|]; [|discriminate].
  intros [= <-].
  destruct (bind_args_last i [n; p; e] false ws E) as [vs' ->].
  rewrite length_app in L. simpl in L.
  unfold param. replace 3 with (List.length vs') by lia.
  apply nth_middle.
Qed.

(** In [stmtAdd.run(id, name, phone, email)] the identifier fills the first
    placeholder. *)
Lemma bind_insert_id (i : string) (n p e : jsvalue) (vs : list sqlvalue) :
  bind_parameters 4 [JStr i; n; p; e] = inr vs ->
  param 0 vs = SText i.
Proof.
  unfold bind_parameters.
  rewrite (bind_args_scalar (JStr i) _ _ (SText i) eq_refl).
  destruct (bind_args [n; p; e] false) as [|ws]; [discriminate|].
  destruct (List.length (SText i :: ws) =? 4)%nat; [|discriminate].
  now intros [= <-].
Qed.

Lemma bind_four_scalars (n p e i : jsvalue) (a b c d : sqlvalue) :
  bind_value n = inr a -> bind_value p = inr b ->
  bind_value e = inr c -> bind_value i = inr d ->
  bind_parameters 4 [n; p; e; i] = inr [a; b; c; d].
Proof.
  intros Hn Hp He Hi. unfold bind_parameters.
  rewrite (bind_args_scalar n _ _ a Hn), (bind_args_scalar p _ _ b Hp),
    (bind_args_scalar e _ _ c He), (bind_args_scalar i _ _ d Hi).
  reflexivity.
Qed.

(** The value bound for a storable [email] field, after the default. *)
Lemma bind_storable_email (rtt : float -> string) (e : jsvalue) :
  storable e ->
  exists c, bind_value (with_default e (JStr "")) = inr c /\
            text_affinity rtt c = expected_email rtt e.
Proof.
  destruct e; simpl; intros H; try contradiction; eauto.
Qed.

(* ================================================================= *)
(** ** The statements on well-typed arguments *)

Lemma find_appended (i : string) (c : contact) (db : table) :
  id c = i -> ~ present i db -> find (has_id i) (db ++ [c]) = Some c.
Proof.
  intros <- H. unfold present in H. induction db as [|r db IH]; simpl.
  - unfold has_id. now rewrite String.eqb_refl.
  - simpl in H. destruct (has_id (id c) r) eqn:E.
    + apply has_id_true in E. tauto.
    + apply IH. tauto.
Qed.

Lemma find_rewritten (i n p : string) (e : option string) (db : table) :
  present i db ->
  find (has_id i) (rewrite_rows i n p e db) = Some (mkContact i n p e).
Proof.
  unfold present, rewrite_rows. induction db as [|r db IH]; simpl.
  - tauto.
  - intros H. destruct (has_id i r) eqn:E.
    + simpl. unfold has_id in *. simpl. rewrite E.
      apply String.eqb_eq in E. now subst.
    + rewrite E. apply IH. apply has_id_false in E. tauto.
Qed.

Lemma rewritten_rows (i n p : string) (e : option string) (db : table) :
  forall r, In r (rewrite_rows i n p e db) -> id r = i ->
            r = mkContact i n p e.
Proof.
  unfold rewrite_rows. intros r H Hi. apply in_map_iff in H.
  destruct H as (r0 & H & _). destruct (has_id i r0) eqn:E.
  - apply has_id_true in E. now subst.
  - apply has_id_false in E. subst. contradiction.
Qed.

Lemma rewrite_rows_ids (i n p : string) (e : option string) (db : table) :
  map id (rewrite_rows i n p e db) = map id db.
Proof.
  unfold rewrite_rows. rewrite map_map. apply map_ext.
  intros r. now destruct (has_id i r).
Qed.

Lemma rewrite_rows_frame (i n p : string) (e : option string) (db : table) :
  Forall2 (fun old new => id new = id old /\ (id old <> i -> new = old))
          db (rewrite_rows i n p e db).
Proof.
  unfold rewrite_rows. induction db as [|r db IH]; simpl; constructor; auto.
  destruct (has_id i r) eqn:E; simpl; split; auto.
  apply has_id_true in E. intros H. contradiction.
Qed.

Lemma rewrite_rows_absent (i n p : string) (e : option string) (db : table) :
  existsb (has_id i) db = false -> rewrite_rows i n p e db = db.
Proof.
  unfold rewrite_rows. induction db as [|r db IH]; simpl; [reflexivity|].
  intros H. apply orb_false_iff in H. destruct H as [H1 H2].
  now rewrite H1, (IH H2).
Qed.

(** [stmtAdd.run] with a fresh identifier and text for name and phone. *)
Lemma stmtAdd_run_text (rtt : float -> string) (i n p : string)
  (e : jsvalue) (c : sqlvalue) (db : table) :
  bind_value e = inr c ->
  ~ present i db ->
  stmtAdd_run rtt i (JStr n) (JStr p) e db =
  (inr tt, db ++ [mkContact i n p (text_affinity rtt c)]).
Proof.
  intros He Hi. unfold stmtAdd_run, bind, lift.
  rewrite (bind_four_scalars (JStr i) (JStr n) (JStr p) e
             (SText i) (SText n) (SText p) c); auto.
  simpl. now rewrite (existsb_absent i db Hi).
Qed.

(** [stmtUpd.run] on an existing identifier with text for name and phone. *)
Lemma stmtUpd_run_text (rtt : float -> string) (i n p : string)
  (e : jsvalue) (c : sqlvalue) (db : table) :
  bind_value e = inr c ->
  present i db ->
  stmtUpd_run rtt (JStr n) (JStr p) e i db =
  (inr tt, rewrite_rows i n p (text_affinity rtt c) db).
Proof.
  intros He Hi. unfold stmtUpd_run, bind, lift.
  rewrite (bind_four_scalars (JStr n) (JStr p) e (JStr i)
             (SText n) (SText p) c (SText i)); auto.
  simpl. change (fun r : contact => id r =? i) with (has_id i).
  apply existsb_present in Hi. rewrite Hi. reflexivity.
Qed.

(** A successful [stmtUpd.run] rewrites rows of the given identifier only. *)
Lemma stmtUpd_run_ok (rtt : float -> string) (n p e : jsvalue) (i : string)
  (db db' : table) (u : unit) :
  stmtUpd_run rtt n p e i db = (inr u, db') ->
  exists n' p' e', db' = rewrite_rows i n' p' e' db.
Proof.
  unfold stmtUpd_run, bind, lift.
  destruct (bind_parameters 4 [n; p; e; JStr i]) as [|vs] eqn:B;
    [discriminate|].
  rewrite (bind_update_where n p e i vs B). simpl.
  change (fun r : contact => id r =? i) with (has_id i).
  destruct (existsb (has_id i) db) eqn:X.
  - destruct (text_affinity rtt (param 0 vs)) as [n'|]; [|discriminate].
    destruct (text_affinity rtt (param 1 vs)) as [p'|]; [|discriminate].
    intros [= _ <-]. now exists n', p', (text_affinity rtt (param 2 vs)).
  - intros [= _ <-]. exists "", "", None.
    now rewrite (rewrite_rows_absent i "" "" None db X).
Qed.

(* ================================================================= *)
(** ** The handlers on well-typed bodies *)

Section ValidBody.

Variable rtt : float -> string.
Variables (b : raw_body) (n p : string).
Hypothesis Hname : field b "name" = JStr n.
Hypothesis Hn : n <> "".
Hypothesis Hphone : field b "phone" = JStr p.
Hypothesis Hp : p <> "".
Hypothesis Hemail : storable (field b "email").

Lemma valid_body_parsed : exists v, express_json b = inr v.
Proof. apply (express_json_accepts b "name"). rewrite Hname. discriminate. Qed.

(** POST with a fresh identifier creates the row and answers 201 with it. *)
Lemma post_valid (uuid : string) (db : table) :
  ~ present uuid db ->
  app rtt uuid PostContacts b db =
  (mkResponse 201
     (JsonContact
        (Some (mkContact uuid n p (expected_email rtt (field b "email"))))),
   db ++ [mkContact uuid n p (expected_email rtt (field b "email"))]).
Proof.
  intros Hfresh. destruct valid_body_parsed as [v E].
  destruct (bind_storable_email rtt _ Hemail) as (c & Hc & Hc').
  unfold app. rewrite E.
  unfold run_route, post_contacts, bind at 1, lift.
  rewrite destructure_fields. cbn [f_name f_phone f_email].
  rewrite !(express_json_field b v E), Hname, Hphone.
  rewrite (to_boolean_str n Hn), (to_boolean_str p Hp).
  unfold bind. cbn [negb orb]. cbv beta iota.
  rewrite (stmtAdd_run_text rtt uuid n p _ c db Hc Hfresh).
  unfold stmtGet_get, ret. rewrite Hc'.
  now rewrite (find_appended uuid (mkContact uuid n p _) db eq_refl Hfresh).
Qed.

(** PUT on an existing identifier rewrites its row and answers 200 with it. *)
Lemma put_valid (uuid i : string) (db : table) :
  present i db ->
  app rtt uuid (PutContact i) b db =
  (mkResponse 200
     (JsonContact
        (Some (mkContact i n p (expected_email rtt (field b "email"))))),
   rewrite_rows i n p (expected_email rtt (field b "email")) db).
Proof.
  intros Hi. destruct valid_body_parsed as [v E].
  destruct (bind_storable_email rtt _ Hemail) as (c & Hc & Hc').
  destruct (find_present i db Hi) as (r0 & Hr0 & _).
  unfold app. rewrite E.
  unfold run_route, put_contact, bind at 1, lift.
  rewrite destructure_fields. cbn [f_name f_phone f_email].
  rewrite !(express_json_field b v E), Hname, Hphone.
  rewrite (to_boolean_str n Hn), (to_boolean_str p Hp).
  unfold bind, stmtGet_get at 1. cbn [negb orb]. cbv beta iota. rewrite Hr0.
  rewrite (stmtUpd_run_text rtt i n p _ c db Hc Hi).
  unfold stmtGet_get, ret. rewrite Hc'.
  now rewrite (find_rewritten i n p _ db Hi).
Qed.

End ValidBody.

(** PUT with usable fields on an unknown identifier: 404, nothing written. *)
Lemma put_unknown (rtt : float -> string) (uuid i : string) (b : raw_body)
  (db : table) :
  to_boolean (field b "name") = true ->
  to_boolean (field b "phone") = true ->
  ~ present i db ->
  app rtt uuid (PutContact i) b db =
  (mkResponse 404 (JsonError not_found_msg), db).
Proof.
  intros Hn Hp Hi.
  destruct (express_json_accepts b "name") as [v E].
  { intros H. rewrite H in Hn. discriminate. }
  unfold app. rewrite E.
  unfold run_route, put_contact, bind, lift.
  rewrite destructure_fields. cbn [f_name f_phone f_email].
  rewrite !(express_json_field b v E), Hn, Hp. simpl.
  apply find_absent in Hi. unfold stmtGet_get. now rewrite Hi.
Qed.

(* ================================================================= *)
(** ** Update (C2, C7) *)

(** C2. PUT /contacts/:id with a non-empty name and phone: when no row has
    the identifier the answer is 404 and the table is unchanged, rows and
    row count alike; when a row has it (name and phone being non-empty
    strings and [email] a value the driver can bind) the answer is 200 and
    carries the updated contact as [stmtGet] reads it back from the table. *)
Theorem put_unknown_or_known
  (rtt : float -> string) (uuid i : string) (b : raw_body) (db : table) :
  (~ present i db ->
   to_boolean (field b "name") = true ->
   to_boolean (field b "phone") = true ->
   app rtt uuid (PutContact i) b db
   = (mkResponse 404 (JsonError not_found_msg), db) /\
   List.length (snd (app rtt uuid (PutContact i) b db)) = List.length db)
  /\
  (present i db ->
   forall n p : string,
     field b "name" = JStr n -> n <> "" ->
     field b "phone" = JStr p -> p <> "" ->
     storable (field b "email") ->
     exists (db' : table) (c : contact),
       app rtt uuid (PutContact i) b db
       = (mkResponse 200 (JsonContact (Some c)), db') /\
       stmtGet_get i db' = (inr (Some c), db') /\
       c = mkContact i n p (expected_email rtt (field b "email")) /\
       db' = rewrite_rows i n p (expected_email rtt (field b "email")) db).
Proof.
  split.
  - intros Hi Hn Hp. rewrite (put_unknown rtt uuid i b db Hn Hp Hi).
    split; reflexivity.
  - intros Hi n p Hname Hn Hphone Hp Hemail.
    eexists _, _. split; [|split; [|split; reflexivity]].
    + apply (put_valid rtt b n p Hname Hn Hphone Hp Hemail uuid i db Hi).
    + unfold stmtGet_get. now rewrite (find_rewritten i n p _ db Hi).
Qed.

(** C7. A PUT /contacts/:id answered with 200 has rewritten the name, phone
    and email of the rows carrying that identifier and nothing else: row by
    row the identifier is the one it was, and every row with another
    identifier is identical before and after. *)
Theorem put_frame
  (rtt : float -> string) (uuid i : string) (b : raw_body)
  (db db' : table) (r : response) :
  app rtt uuid (PutContact i) b db = (r, db') ->
  status r = 200 ->
  (exists n p e, db' = rewrite_rows i n p e db) /\
  map id db' = map id db /\
  Forall2 (fun old new => id new = id old /\ (id old <> i -> new = old))
          db db'.
Proof.
  intros H Hs.
  assert (K : exists n p e, db' = rewrite_rows i n p e db).
  { revert H. unfold app.
    destruct (express_json b) as [r0|v] eqn:E.
    - apply express_json_rejects in E. subst r0. intros [= <- _].
      discriminate.
    - unfold run_route, put_contact, bind, lift.
      rewrite destructure_fields. cbn [f_name f_phone f_email].
      destruct (negb (to_boolean (prop_of v "name"))
                || negb (to_boolean (prop_of v "phone"))).
      + intros [= <- _]. discriminate.
      + unfold stmtGet_get at 1.
        destruct (find (has_id i) db) as [r0|] eqn:F.
        * destruct (stmtUpd_run rtt (prop_of v "name") (prop_of v "phone")
                      (with_default (prop_of v "email") (JStr "")) i db)
            as [[e|u] db1] eqn:U.
          -- intros [= <- _]. discriminate.
          -- unfold stmtGet_get, ret. intros [= _ <-].
             exact (stmtUpd_run_ok _ _ _ _ _ _ _ _ U).
        * intros [= <- _]. discriminate. }
  destruct K as (n & p & e & ->). split; [now exists n, p, e|].
  split; [apply rewrite_rows_ids | apply rewrite_rows_frame].
Qed.

(* ================================================================= *)
(** ** Create and update with and without [email] (C6, C10) *)

(** C6. A POST /contacts, and likewise a PUT /contacts/:id, whose body has a
    non-empty name and phone and no [email] field stores and returns a
    contact whose [email] is the empty string and whose name and phone are
    those of the request.  The POST answers 201 with the created contact as
    [stmtGet] reads it back ([uuid] being an identifier not yet in the
    table); the PUT answers 200 on an existing identifier. *)
Theorem email_defaults_to_empty
  (rtt : float -> string) (uuid i : string) (b : raw_body) (n p : string)
  (db : table) :
  field b "name" = JStr n -> n <> "" ->
  field b "phone" = JStr p -> p <> "" ->
  field b "email" = JUndefined ->
  (~ present uuid db ->
   app rtt uuid PostContacts b db
   = (mkResponse 201 (JsonContact (Some (mkContact uuid n p (Some "")))),
      db ++ [mkContact uuid n p (Some "")]) /\
   stmtGet_get uuid (db ++ [mkContact uuid n p (Some "")])
   = (inr (Some (mkContact uuid n p (Some ""))),
      db ++ [mkContact uuid n p (Some "")]))
  /\
  (present i db ->
   app rtt uuid (PutContact i) b db
   = (mkResponse 200 (JsonContact (Some (mkContact i n p (Some "")))),
      rewrite_rows i n p (Some "") db) /\
   stmtGet_get i (rewrite_rows i n p (Some "") db)
   = (inr (Some (mkContact i n p (Some ""))),
      rewrite_rows i n p (Some "") db) /\
   forall r, In r (rewrite_rows i n p (Some "") db) -> id r = i ->
             r = mkContact i n p (Some "")).
Proof.
  intros Hname Hn Hphone Hp Hemail.
  assert (Hs : storable (field b "email")) by (rewrite Hemail; exact I).
  split.
  - intros Hfresh.
    rewrite (post_valid rtt b n p Hname Hn Hphone Hp Hs uuid db Hfresh).
    rewrite Hemail. simpl expected_email. split; [reflexivity|].
    unfold stmtGet_get.
    now rewrite (find_appended uuid (mkContact uuid n p (Some "")) db eq_refl Hfresh).
  - intros Hi.
    rewrite (put_valid rtt b n p Hname Hn Hphone Hp Hs uuid i db Hi).
    rewrite Hemail. simpl expected_email. split; [reflexivity|]. split.
    + unfold stmtGet_get. now rewrite (find_rewritten i n p _ db Hi).
    + apply rewritten_rows.
Qed.

(** C10. The default applies to an absent [email] only.  With an explicit
    [email: null] (name and phone being non-empty strings) a POST stores and
    returns a contact whose email is NULL, and so does a PUT on an existing
    identifier: the email of a returned contact is not always a string. *)
Theorem email_null_is_kept
  (rtt : float -> string) (uuid i : string) (b : raw_body) (n p : string)
  (db : table) :
  field b "name" = JStr n -> n <> "" ->
  field b "phone" = JStr p -> p <> "" ->
  field b "email" = JNull ->
  (~ present uuid db ->
   app rtt uuid PostContacts b db
   = (mkResponse 201 (JsonContact (Some (mkContact uuid n p None))),
      db ++ [mkContact uuid n p None]) /\
   stmtGet_get uuid (db ++ [mkContact uuid n p None])
   = (inr (Some (mkContact uuid n p None)), db ++ [mkContact uuid n p None]))
  /\
  (present i db ->
   app rtt uuid (PutContact i) b db
   = (mkResponse 200 (JsonContact (Some (mkContact i n p None))),
      rewrite_rows i n p None db) /\
   stmtGet_get i (rewrite_rows i n p None db)
   = (inr (Some (mkContact i n p None)), rewrite_rows i n p None db))
  /\
  email (mkContact uuid n p None) <> Some "".
Proof.
  intros Hname Hn Hphone Hp Hemail.
  assert (Hs : storable (field b "email")) by (rewrite Hemail; exact I).
  split; [|split].
  - intros Hfresh.
    rewrite (post_valid rtt b n p Hname Hn Hphone Hp Hs uuid db Hfresh).
    rewrite Hemail. simpl expected_email. split; [reflexivity|].
    unfold stmtGet_get.
    now rewrite (find_appended uuid (mkContact uuid n p None) db eq_refl Hfresh).
  - intros Hi.
    rewrite (put_valid rtt b n p Hname Hn Hphone Hp Hs uuid i db Hi).
    rewrite Hemail. simpl expected_email. split; [reflexivity|].
    unfold stmtGet_get. now rewrite (find_rewritten i n p _ db Hi).
  - discriminate.
Qed.

(* ================================================================= *)
(** ** Delete (C3) *)

Lemma count_absent (i : string) (db : table) :
  ~ present i db -> filter (has_id i) db = [].
Proof.
  intros H. apply existsb_absent in H.
  induction db as [|r db IH]; simpl in *; [reflexivity|].
  apply orb_false_iff in H. destruct H as [H1 H2].
  rewrite H1. now apply IH.
Qed.

Lemma count_present (i : string) (db : table) :
  present i db -> (List.length (filter (has_id i) db) =? 0)%nat = false.
Proof.
  unfold present. induction db as [|r db IH]; simpl; [tauto|].
  intros H. destruct (has_id i r) eqn:E; [reflexivity|].
  apply has_id_false in E. apply IH. tauto.
Qed.

Lemma remove_absent (i : string) (db : table) :
  ~ present i db -> filter (fun r => negb (has_id i r)) db = db.
Proof.
  intros H. apply existsb_absent in H.
  induction db as [|r db IH]; simpl in *; [reflexivity|].
  apply orb_false_iff in H. destruct H as [H1 H2].
  rewrite H1. simpl. now rewrite (IH H2).
Qed.

Lemma removed_absent (i : string) (db : table) :
  ~ present i (filter (fun r => negb (has_id i r)) db).
Proof.
  unfold present. rewrite in_map_iff. intros (r & Hr & H).
  apply filter_In in H. destruct H as [_ H].
  apply negb_true_iff, has_id_false in H. contradiction.
Qed.

Lemma delete_unknown (i : string) (db : table) :
  ~ present i db ->
  run_route (delete_contact i) db
  = (mkResponse 404 (JsonError not_found_msg), db).
Proof.
  intros H. unfold run_route, delete_contact, bind, stmtDel_run.
  now rewrite (count_absent i db H), (remove_absent i db H).
Qed.

(** C3. DELETE /contacts/:id on an identifier some row carries answers 204
    with no body and removes that row, every other row staying in place; on
    an identifier no row carries it answers 404 and leaves the table as it
    was.  Hence deleting an existing identifier twice gives 204, then 404. *)
Theorem delete_then_delete (i : string) (db : table) :
  (present i db ->
   run_route (delete_contact i) db
   = (mkResponse 204 NoBody, filter (fun r => negb (has_id i r)) db) /\
   ~ present i (snd (run_route (delete_contact i) db)) /\
   (forall r, In r db -> id r <> i ->
              In r (snd (run_route (delete_contact i) db))) /\
   status (fst (run_route (delete_contact i)
                  (snd (run_route (delete_contact i) db)))) = 404)
  /\
  (~ present i db ->
   run_route (delete_contact i) db
   = (mkResponse 404 (JsonError not_found_msg), db)).
Proof.
  split; [|apply delete_unknown].
  intros H.
  assert (E : run_route (delete_contact i) db
              = (mkResponse 204 NoBody,
                 filter (fun r => negb (has_id i r)) db)).
  { unfold run_route, delete_contact, bind, stmtDel_run.
    now rewrite (count_present i db H). }
  rewrite E. simpl snd. split; [reflexivity|]. split; [|split].
  - apply removed_absent.
  - intros r Hr Hi. apply filter_In. split; [assumption|].
    now apply negb_true_iff, has_id_false.
  - now rewrite (delete_unknown i _ (removed_absent i db)).
Qed.

(* ================================================================= *)
(** ** Listing (C4) *)

Lemma ascii_compare_refl (a : ascii) : Ascii.compare a a = Eq.
Proof. unfold Ascii.compare. apply N.compare_refl. Qed.

Lemma ascii_compare_lt_trans (a b c : ascii) :
  Ascii.compare a b = Lt -> Ascii.compare b c = Lt -> Ascii.compare a c = Lt.
Proof.
  unfold Ascii.compare. rewrite !N.compare_lt_iff. apply N.lt_trans.
Qed.

(** Bytewise order on strings is transitive. *)
Lemma string_compare_trans (s1 : string) :
  forall s2 s3 : string,
    (s1 ?= s2)%string <> Gt -> (s2 ?= s3)%string <> Gt ->
    (s1 ?= s3)%string <> Gt.
Proof.
  induction s1 as [|a s1 IH]; intros [|b s2] [|c s3]; simpl;
    try congruence.
  destruct (Ascii.compare a b) eqn:E1; try congruence;
    destruct (Ascii.compare b c) eqn:E2; try congruence.
  - apply Ascii.compare_eq_iff in E1, E2. subst.
    rewrite ascii_compare_refl. apply IH.
  - apply Ascii.compare_eq_iff in E1. subst. rewrite E2. congruence.
  - apply Ascii.compare_eq_iff in E2. subst. rewrite E1. congruence.
  - rewrite (ascii_compare_lt_trans a b c E1 E2). congruence.
Qed.

Lemma string_leb_trans (s1 s2 s3 : string) :
  (s1 <=? s2)%string = true -> (s2 <=? s3)%string = true ->
  (s1 <=? s3)%string = true.
Proof.
  unfold String.leb. intros H1 H2.
  assert (K := string_compare_trans s1 s2 s3).
  destruct (s1 ?= s2)%string; try discriminate;
    destruct (s2 ?= s3)%string; try discriminate;
    destruct (s1 ?= s3)%string; try reflexivity;
    exfalso; apply K; congruence.
Qed.

Lemma string_leb_refl (s : string) : (s <=? s)%string = true.
Proof. destruct (String.leb_total s s); assumption. Qed.

Lemma name_le_trans (a b c : contact) :
  name_le a b -> name_le b c -> name_le a c.
Proof. apply string_leb_trans. Qed.

Lemma insert_by_name_perm (r : contact) (l : list contact) :
  Permutation (r :: l) (insert_by_name r l).
Proof.
  induction l as [|x l IH]; simpl; [constructor; constructor|].
  destruct (name r <=? name x)%string; [apply Permutation_refl|].
  eapply perm_trans; [apply perm_swap|]. now constructor.
Qed.

Lemma order_by_name_perm (db : table) : Permutation db (order_by_name db).
Proof.
  induction db as [|r db IH]; simpl; [constructor|].
  eapply perm_trans; [|apply insert_by_name_perm]. now constructor.
Qed.

Lemma insert_by_name_sorted (r : contact) (l : list contact) :
  StronglySorted name_le l -> StronglySorted name_le (insert_by_name r l).
Proof.
  induction 1 as [|x l Hl IH Hx]; simpl.
  - repeat constructor.
  - destruct (name r <=? name x)%string eqn:E.
    + constructor; [now constructor|].
      constructor; [exact E|].
      eapply Forall_impl; [|exact Hx].
      intros c Hc. exact (name_le_trans r x c E Hc).
    + constructor; [exact IH|].
      assert (Hxr : name_le x r).
      { unfold name_le. destruct (String.leb_total (name x) (name r));
          [assumption | congruence]. }
      eapply Permutation_Forall; [apply insert_by_name_perm|].
      now constructor.
Qed.

Lemma order_by_name_sorted (db : table) :
  StronglySorted name_le (order_by_name db).
Proof.
  induction db as [|r db IH]; simpl; [constructor|].
  now apply insert_by_name_sorted.
Qed.

(** In a list sorted by name, a row of strictly smaller name comes first. *)
Lemma sorted_places_before (a z : contact) (l : list contact) :
  StronglySorted name_le l ->
  In a l -> In z l -> (name z <=? name a)%string = false ->
  exists l1 l2 l3, l = l1 ++ a :: l2 ++ z :: l3.
Proof.
  intros Hs. induction Hs as [|x l Hl IH Hx]; [contradiction|].
  intros Ha Hz Hlt.
  assert (Hne : z <> a).
  { intros ->. rewrite string_leb_refl in Hlt. discriminate. }
  destruct Ha as [->|Ha].
  - destruct Hz as [Hz|Hz]; [now subst|].
    apply in_split in Hz. destruct Hz as (l2 & l3 & ->).
    now exists [], l2, l3.
  - destruct Hz as [->|Hz].
    + rewrite Forall_forall in Hx. specialize (Hx a Ha).
      unfold name_le in Hx. congruence.
    + destruct (IH Ha Hz Hlt) as (l1 & l2 & l3 & ->).
      now exists (x :: l1), l2, l3.
Qed.

(** C4. GET /contacts answers 200 with one array that holds every stored
    contact (it is a permutation of the table) in ascending bytewise order of
    [name], and leaves the table alone.  In particular, once a contact named
    "Zed" and then one named "Amy" have been created, the listing shows the
    row "Amy" somewhere before the row "Zed". *)
Theorem list_sorted_by_name (db : table) :
  (exists rows,
     run_route get_contacts db = (mkResponse 200 (JsonContacts rows), db) /\
     Permutation db rows /\
     StronglySorted name_le rows)
  /\
  (forall (rtt : float -> string) (u1 u2 : string) (bz ba : raw_body)
          (pz pa : string),
     field bz "name" = JStr "Zed" -> field bz "phone" = JStr pz ->
     field ba "name" = JStr "Amy" -> field ba "phone" = JStr pa ->
     pz <> "" -> pa <> "" ->
     storable (field bz "email") -> storable (field ba "email") ->
     ~ present u1 db -> ~ present u2 db -> u1 <> u2 ->
     exists (zed amy : contact) (l1 l2 l3 : list contact),
       id zed = u1 /\ name zed = "Zed" /\ id amy = u2 /\ name amy = "Amy" /\
       fst (run_route get_contacts
              (snd (app rtt u2 PostContacts ba
                      (snd (app rtt u1 PostContacts bz db)))))
       = mkResponse 200 (JsonContacts (l1 ++ amy :: l2 ++ zed :: l3))).
Proof.
  split.
  - exists (order_by_name db). split; [reflexivity|].
    split; [apply order_by_name_perm | apply order_by_name_sorted].
  - intros rtt u1 u2 bz ba pz pa Hz Hpz Ha Hpa Hz' Ha' Hez Hea H1 H2 H12.
    set (zed := mkContact u1 "Zed" pz (expected_email rtt (field bz "email"))).
    set (amy := mkContact u2 "Amy" pa (expected_email rtt (field ba "email"))).
    assert (Hzed : "Zed" <> "") by discriminate.
    assert (Hamy : "Amy" <> "") by discriminate.
    rewrite (post_valid rtt bz "Zed" pz Hz Hzed Hpz Hz' Hez u1 db H1).
    simpl snd. fold zed.
    assert (H2' : ~ present u2 (db ++ [zed])).
    { unfold present in *. rewrite map_app, in_app_iff. simpl.
      intros [H|[H|[]]]; [now apply H2 | now apply H12]. }
    rewrite (post_valid rtt ba "Amy" pa Ha Hamy Hpa Ha' Hea u2 _ H2').
    simpl snd. fold amy.
    destruct (sorted_places_before amy zed
                (order_by_name ((db ++ [zed]) ++ [amy])))
      as (l1 & l2 & l3 & E).
    + apply order_by_name_sorted.
    + eapply Permutation_in; [apply order_by_name_perm|].
      rewrite in_app_iff. right. now left.
    + eapply Permutation_in; [apply order_by_name_perm|].
      rewrite !in_app_iff. left. right. now left.
    + reflexivity.
    + exists zed, amy, l1, l2, l3. repeat (split; [reflexivity|]).
      unfold run_route, get_contacts, bind, stmtAll_all, ret. simpl fst.
      now rewrite E.
Qed.

(* ================================================================= *)
(** ** Seeding (C8) *)

Lemma seed_two_rows (rtt : float -> string) (u1 u2 : string) :
  u1 <> u2 ->
  seed_contacts rtt u1 u2 [] = (inr tt, [ron u1; marine u2]).
Proof.
  intros H.
  unfold seed_contacts, bind. simpl Nat.eqb. cbv iota.
  rewrite (stmtAdd_run_text rtt u1 "Ron Levi" "050-111-2233"
             (JStr "ron@example.com") (SText "ron@example.com") []
             eq_refl (fun K => K)).
  change (stmtAdd_run rtt u2 (JStr "Marine Azulay") (JStr "052-444-5566")
            (JStr "marine@example.com") [ron u1]
          = (inr tt, [ron u1; marine u2])).
  rewrite (stmtAdd_run_text rtt u2 "Marine Azulay" "052-444-5566"
             (JStr "marine@example.com") (SText "marine@example.com")
             [ron u1] eq_refl).
  - reflexivity.
  - unfold present. simpl. intros [K|[]]. now apply H.
Qed.

(** C8. Start-up on an empty table leaves exactly two contacts in it, named
    "Ron Levi" and "Marine Azulay" ([u1] and [u2] being the two distinct
    identifiers drawn for them); start-up on a table that already has a row
    inserts nothing. *)
Theorem seeding_on_first_run
  (rtt : float -> string) (u1 u2 : string) (db : table) :
  (u1 <> u2 ->
   seed_contacts rtt u1 u2 [] = (inr tt, [ron u1; marine u2]) /\
   List.length (snd (seed_contacts rtt u1 u2 [])) = 2 /\
   map name (snd (seed_contacts rtt u1 u2 []))
   = ["Ron Levi"; "Marine Azulay"])
  /\
  (db <> [] -> seed_contacts rtt u1 u2 db = (inr tt, db)).
Proof.
  split.
  - intros H. rewrite (seed_two_rows rtt u1 u2 H). repeat split.
  - intros H. unfold seed_contacts. destruct db; [contradiction|reflexivity].
Qed.

(** Should the two identifiers collide, the second insert hits the primary
    key and start-up stops with one row written. *)
Lemma seeding_collision (rtt : float -> string) (u : string) :
  seed_contacts rtt u u [] = (inl SqliteError, [ron u]).
Proof.
  unfold seed_contacts, bind. simpl Nat.eqb. cbv iota.
  rewrite (stmtAdd_run_text rtt u "Ron Levi" "050-111-2233"
             (JStr "ron@example.com") (SText "ron@example.com") []
             eq_refl (fun K => K)).
  unfold stmtAdd_run, bind, lift. simpl.
  unfold has_id. simpl. now rewrite String.eqb_refl.
Qed.

(* ================================================================= *)
(** ** The store invariant (C5) *)

(** What [stmtAdd.run] can do to the table: nothing, or append one row under
    an identifier that no row had. *)
Lemma stmtAdd_run_cases (rtt : float -> string) (i : string)
  (n p e : jsvalue) (db db' : table) (out : res unit) :
  stmtAdd_run rtt i n p e db = (out, db') ->
  db' = db \/
  (~ present i db /\
   exists vs n' p',
     bind_parameters 4 [JStr i; n; p; e] = inr vs /\
     text_affinity rtt (param 1 vs) = Some n' /\
     text_affinity rtt (param 2 vs) = Some p' /\
     db' = db ++ [mkContact i n' p' (text_affinity rtt (param 3 vs))]).
Proof.
  unfold stmtAdd_run, bind, lift, throw.
  destruct (bind_parameters 4 [JStr i; n; p; e]) as [|vs] eqn:B.
  - intros [= _ <-]. now left.
  - destruct (text_affinity rtt (param 1 vs)) as [n'|] eqn:N;
      [|intros [= _ <-]; now left].
    destruct (text_affinity rtt (param 2 vs)) as [p'|] eqn:P;
      [|intros [= _ <-]; now left].
    destruct (existsb (has_id i) db) eqn:X; intros [= _ <-]; [now left|].
    right. split.
    + intros K. apply existsb_present in K. congruence.
    + now exists vs, n', p'.
Qed.

(** What [stmtUpd.run] can do: nothing, or rewrite the rows of the
    identifier with the first three bound values. *)
Lemma stmtUpd_run_cases (rtt : float -> string) (n p e : jsvalue)
  (i : string) (db db' : table) (out : res unit) :
  stmtUpd_run rtt n p e i db = (out, db') ->
  db' = db \/
  exists vs n' p',
    bind_parameters 4 [n; p; e; JStr i] = inr vs /\
    text_affinity rtt (param 0 vs) = Some n' /\
    text_affinity rtt (param 1 vs) = Some p' /\
    db' = rewrite_rows i n' p' (text_affinity rtt (param 2 vs)) db.
Proof.
  unfold stmtUpd_run, bind, lift.
  destruct (bind_parameters 4 [n; p; e; JStr i]) as [|vs] eqn:B.
  - intros [= _ <-]. now left.
  - rewrite (bind_update_where n p e i vs B). simpl.
    change (fun r : contact => id r =? i) with (has_id i).
    destruct (existsb (has_id i) db); [|intros [= _ <-]; now left].
    destruct (text_affinity rtt (param 0 vs)) as [n'|] eqn:N;
      [|intros [= _ <-]; now left].
    destruct (text_affinity rtt (param 1 vs)) as [p'|] eqn:P;
      [|intros [= _ <-]; now left].
    intros [= _ <-]. right. now exists vs, n', p'.
Qed.

(** The table after a POST. *)
Lemma post_cases (rtt : float -> string) (uuid : string) (b : raw_body)
  (db : table) :
  snd (app rtt uuid PostContacts b db) = db \/
  (to_boolean (field b "name") = true /\
   to_boolean (field b "phone") = true /\
   ~ present uuid db /\
   exists vs n' p',
     bind_parameters 4 [JStr uuid; field b "name"; field b "phone";
                        with_default (field b "email") (JStr "")] = inr vs /\
     text_affinity rtt (param 1 vs) = Some n' /\
     text_affinity rtt (param 2 vs) = Some p' /\
     snd (app rtt uuid PostContacts b db)
     = db ++ [mkContact uuid n' p' (text_affinity rtt (param 3 vs))]).
Proof.
  remember (snd (app rtt uuid PostContacts b db)) as dbf eqn:Hf.
  unfold app in Hf.
  destruct (express_json b) as [r|v] eqn:E; [now left|].
  unfold run_route, post_contacts, bind, lift in Hf.
  rewrite destructure_fields in Hf. cbn [f_name f_phone f_email] in Hf.
  rewrite !(express_json_field b v E) in Hf.
  destruct (to_boolean (field b "name")) eqn:N; [|now left].
  destruct (to_boolean (field b "phone")) eqn:P; [|now left].
  cbn [negb orb] in Hf. cbv beta iota in Hf.
  destruct (stmtAdd_run rtt uuid (field b "name") (field b "phone")
              (with_default (field b "email") (JStr "")) db)
    as [out db1] eqn:A.
  assert (K : dbf = db1).
  { destruct out; exact Hf. }
  clear Hf. subst dbf.
  destruct (stmtAdd_run_cases _ _ _ _ _ _ _ _ A) as [->|(F & H)];
    [now left|].
  right. repeat split; assumption.
Qed.

(** The table after a PUT. *)
Lemma put_cases (rtt : float -> string) (uuid i : string) (b : raw_body)
  (db : table) :
  snd (app rtt uuid (PutContact i) b db) = db \/
  (to_boolean (field b "name") = true /\
   to_boolean (field b "phone") = true /\
   exists vs n' p',
     bind_parameters 4 [field b "name"; field b "phone";
                        with_default (field b "email") (JStr ""); JStr i]
     = inr vs /\
     text_affinity rtt (param 0 vs) = Some n' /\
     text_affinity rtt (param 1 vs) = Some p' /\
     snd (app rtt uuid (PutContact i) b db)
     = rewrite_rows i n' p' (text_affinity rtt (param 2 vs)) db).
Proof.
  remember (snd (app rtt uuid (PutContact i) b db)) as dbf eqn:Hf.
  unfold app in Hf.
  destruct (express_json b) as [r|v] eqn:E; [now left|].
  unfold run_route, put_contact, bind, lift in Hf.
  rewrite destructure_fields in Hf. cbn [f_name f_phone f_email] in Hf.
  rewrite !(express_json_field b v E) in Hf.
  destruct (to_boolean (field b "name")) eqn:N; [|now left].
  destruct (to_boolean (field b "phone")) eqn:P; [|now left].
  cbn [negb orb] in Hf. cbv beta iota in Hf. unfold stmtGet_get at 1 in Hf.
  destruct (find (has_id i) db); [|now left].
  destruct (stmtUpd_run rtt (field b "name") (field b "phone")
              (with_default (field b "email") (JStr "")) i db)
    as [out db1] eqn:U.
  assert (K : dbf = db1).
  { destruct out; exact Hf. }
  clear Hf. subst dbf.
  destruct (stmtUpd_run_cases _ _ _ _ _ _ _ _ U) as [->|H]; [now left|].
  right. repeat split; assumption.
Qed.

(** Text for [name] and [phone] is bound as it is, in its own place. *)
Lemma textual_bound (pre post : list jsvalue) (n p : jsvalue)
  (vs : list sqlvalue) (k : nat) :
  (forall v, In v pre -> exists s, v = JStr s) ->
  k = List.length pre ->
  textual n -> textual p ->
  to_boolean n = true -> to_boolean p = true ->
  bind_args (pre ++ n :: p :: post) false = inr vs ->
  exists s t, s <> "" /\ t <> "" /\
              param k vs = SText s /\ param (S k) vs = SText t.
Proof.
  intros Hpre -> Tn Tp Bn Bp.
  assert (Hn : exists s, n = JStr s /\ s <> "" \/ n = JBool true).
  { destruct n as [| |[|]|f|s|l|l]; simpl in *;
      try contradiction; try discriminate.
    - exists "". now right.
    - exists s. left. split; [reflexivity|].
      now apply negb_true_iff, String.eqb_neq in Bn. }
  assert (Hp : exists t, p = JStr t /\ t <> "" \/ p = JBool true).
  { destruct p as [| |[|]|f|s|l|l]; simpl in *;
      try contradiction; try discriminate.
    - exists "". now right.
    - exists s. left. split; [reflexivity|].
      now apply negb_true_iff, String.eqb_neq in Bp. }
  clear Tn Tp Bn Bp. revert vs.
  induction pre as [|a pre IH]; intros vs H.
  - change ([] ++ n :: p :: post) with (n :: p :: post) in H.
    destruct Hn as [s [[-> Hs]| ->]]; [|discriminate].
    destruct Hp as [t [[-> Ht]| ->]].
    + rewrite (bind_args_scalar (JStr s) _ _ (SText s) eq_refl) in H.
      rewrite (bind_args_scalar (JStr t) _ _ (SText t) eq_refl) in H.
      destruct (bind_args post false); [discriminate|].
      injection H as <-. now exists s, t.
    + rewrite (bind_args_scalar (JStr s) _ _ (SText s) eq_refl) in H.
      discriminate.
  - destruct (Hpre a (or_introl eq_refl)) as [s0 ->].
    change ((JStr s0 :: pre) ++ n :: p :: post)
      with (JStr s0 :: (pre ++ n :: p :: post)) in H.
    rewrite (bind_args_scalar (JStr s0) _ _ (SText s0) eq_refl) in H.
    destruct (bind_args (pre ++ n :: p :: post) false) as [|ws] eqn:W;
      [discriminate|].
    injection H as <-.
    destruct (IH (fun v Hv => Hpre v (or_intror Hv)) ws eq_refl)
      as (s & t & Hs & Ht & H1 & H2).
    now exists s, t.
Qed.

Lemma NoDup_ids_filter (f : contact -> bool) (db : table) :
  NoDup (map id db) -> NoDup (map id (filter f db)).
Proof.
  induction db as [|r db IH]; simpl; [trivial|].
  intros H. apply NoDup_cons_iff in H. destruct H as [H1 H2].
  destruct (f r); [|now apply IH]. simpl. constructor; [|now apply IH].
  intros K. apply H1. apply in_map_iff in K. destruct K as (x & Hx & K).
  apply filter_In in K. apply in_map_iff. exists x. tauto.
Qed.

Lemma rewrite_rows_fields (i n p : string) (e : option string) (db : table) :
  n <> "" -> p <> "" ->
  Forall (fun r => name r <> "" /\ phone r <> "") db ->
  Forall (fun r => name r <> "" /\ phone r <> "") (rewrite_rows i n p e db).
Proof.
  intros Hn Hp H. unfold rewrite_rows. apply Forall_map.
  eapply Forall_impl; [|exact H]. intros r Hr.
  destruct (has_id i r); [split; assumption | exact Hr].
Qed.

(** Identifiers stay unique under every request, whatever its body. *)
Lemma ids_stay_unique (rtt : float -> string) (uuid : string) (r : route)
  (b : raw_body) (db : table) :
  NoDup (map id db) -> NoDup (map id (snd (app rtt uuid r b db))).
Proof.
  intros H. destruct r as [| | |i|i].
  - unfold app. now destruct (express_json b).
  - unfold app. now destruct (express_json b).
  - destruct (post_cases rtt uuid b db)
      as [->|(_ & _ & F & vs & n' & p' & _ & _ & _ & ->)]; [assumption|].
    rewrite map_app. simpl. apply NoDup_app; [assumption | | ].
    + constructor; [simpl; tauto | constructor].
    + intros x Hx [<-|[]]. contradiction.
  - destruct (put_cases rtt uuid i b db)
      as [->|(_ & _ & vs & n' & p' & _ & _ & _ & ->)]; [assumption|].
    now rewrite rewrite_rows_ids.
  - unfold app. destruct (express_json b); [assumption|].
    unfold run_route, delete_contact, bind, stmtDel_run.
    destruct (List.length (filter (has_id i) db) =? 0)%nat; simpl;
      now apply NoDup_ids_filter.
Qed.

(** The whole invariant is kept by every request whose [name] and [phone]
    are absent, [null], booleans or strings. *)
Lemma invariant_kept_textual (rtt : float -> string) (uuid : string)
  (r : route) (b : raw_body) (db : table) :
  textual (field b "name") -> textual (field b "phone") ->
  store_invariant db -> store_invariant (snd (app rtt uuid r b db)).
Proof.
  intros Tn Tp [Hu Hf]. split; [now apply ids_stay_unique|].
  destruct r as [| | |i|i].
  - unfold app. now destruct (express_json b).
  - unfold app. now destruct (express_json b).
  - destruct (post_cases rtt uuid b db)
      as [->|(Bn & Bp & _ & vs & n' & p' & B & N & P & ->)]; [assumption|].
    unfold bind_parameters in B.
    destruct (bind_args _ false) as [|ws] eqn:W in B; [discriminate|].
    destruct (List.length ws =? 4)%nat; [|discriminate].
    injection B as <-.
    destruct (textual_bound [JStr uuid]
                [with_default (field b "email") (JStr "")]
                (field b "name") (field b "phone") ws 1)
      as (s & t & Hs & Ht & H1 & H2); auto.
    { intros v [<-|[]]. now exists uuid. }
    rewrite H1 in N. rewrite H2 in P. simpl in N, P.
    injection N as <-. injection P as <-.
    apply Forall_app. split; [assumption|]. constructor; [|constructor].
    simpl. tauto.
  - destruct (put_cases rtt uuid i b db)
      as [->|(Bn & Bp & vs & n' & p' & B & N & P & ->)]; [assumption|].
    unfold bind_parameters in B.
    destruct (bind_args _ false) as [|ws] eqn:W in B; [discriminate|].
    destruct (List.length ws =? 4)%nat; [|discriminate].
    injection B as <-.
    destruct (textual_bound []
                [with_default (field b "email") (JStr ""); JStr i]
                (field b "name") (field b "phone") ws 0)
      as (s & t & Hs & Ht & H1 & H2); auto.
    { intros v []. }
    rewrite H1 in N. rewrite H2 in P. simpl in N, P.
    injection N as <-. injection P as <-.
    now apply rewrite_rows_fields.
  - unfold app. destruct (express_json b); [assumption|].
    unfold run_route, delete_contact, bind, stmtDel_run.
    destruct (List.length (filter (has_id i) db) =? 0)%nat; simpl;
      apply Forall_forall; intros x Hx; apply filter_In in Hx;
      rewrite Forall_forall in Hf; now apply Hf.
Qed.

(** Seeding keeps the invariant. *)
Lemma seeding_keeps_invariant (rtt : float -> string) (u1 u2 : string)
  (db : table) :
  store_invariant db -> store_invariant (snd (seed_contacts rtt u1 u2 db)).
Proof.
  intros H. destruct db as [|r db]; [|exact H].
  destruct (String.eqb_spec u1 u2) as [->|Hne].
  - rewrite seeding_collision. simpl. split.
    + constructor; [simpl; tauto | constructor].
    + repeat constructor; discriminate.
  - rewrite (seed_two_rows rtt u1 u2 Hne). simpl. split.
    + constructor; [simpl; intros [K|[]]; congruence|].
      constructor; [simpl; tauto | constructor].
    + repeat constructor; discriminate.
Qed.

(** C5. The invariant (unique identifiers, no empty [name] or [phone]) is
    not kept by POST: the body [{"name": [""], "phone": "1"}] passes the
    check [!name || !phone], an array being truthy, and the driver spreads
    the array over the placeholder of [name].  Starting from the empty
    table, which satisfies the invariant, the request is answered 201 and
    leaves a row whose [name] is the empty string. *)
Theorem post_array_name_stores_empty_name
  (rtt : float -> string) (uuid : string) :
  store_invariant [] /\
  app rtt uuid PostContacts body_array_name []
  = (mkResponse 201 (JsonContact (Some (mkContact uuid "" "1" (Some "")))),
     [mkContact uuid "" "1" (Some "")]) /\
  ~ store_invariant (snd (app rtt uuid PostContacts body_array_name [])).
Proof.
  assert (E : app rtt uuid PostContacts body_array_name []
              = (mkResponse 201
                   (JsonContact (Some (mkContact uuid "" "1" (Some "")))),
                 [mkContact uuid "" "1" (Some "")])).
  { unfold app, run_route, post_contacts, bind, lift, stmtAdd_run,
      stmtGet_get, ret. simpl. unfold has_id. simpl.
    now rewrite String.eqb_refl. }
  split; [split; constructor|]. split; [exact E|].
  rewrite E. simpl. intros [_ H]. inversion H as [|x l [Hn _] _]; subst.
  now apply Hn.
Qed.

(** The same body sent to PUT empties the name of an existing row. *)
Lemma put_array_name_stores_empty_name
  (rtt : float -> string) (uuid u : string) :
  snd (app rtt uuid (PutContact u) body_array_name [ron u])
  = [mkContact u "" "1" (Some "")].
Proof.
  unfold app, run_route, put_contact, stmtUpd_run, stmtGet_get, bind, lift,
    ret, has_id. simpl.
  repeat (rewrite String.eqb_refl; simpl). reflexivity.
Qed.

(* ================================================================= *)
(** ** The theorems at the examples of the specification *)

(** POST [{phone:"1"}] on a table of one row: 400, the row count stays. *)
Lemma post_invalid_rejected_witness :
  invalid_body body_no_name /\
  status (fst (app (fun _ => "0.0") "u1" PostContacts body_no_name
                 [ron "r1"])) = 400 /\
  snd (app (fun _ => "0.0") "u1" PostContacts body_no_name [ron "r1"])
  = [ron "r1"].
Proof.
  assert (H : invalid_body body_no_name) by (left; reflexivity).
  split; [exact H|].
  destruct (post_invalid_rejected (fun _ => "0.0") "u1" body_no_name
              [ron "r1"] H) as (H1 & H2 & _).
  split; assumption.
Defined.

(** PUT [{phone:"1"}] on an identifier that no row has: 400, not 404. *)
Lemma put_invalid_rejected_witness :
  invalid_body body_no_name /\
  ~ present "does-not-exist" [ron "r1"] /\
  status (fst (app (fun _ => "0.0") "u1" (PutContact "does-not-exist")
                 body_no_name [ron "r1"])) = 400.
Proof.
  assert (H : invalid_body body_no_name) by (left; reflexivity).
  split; [exact H|]. split.
  - unfold present. simpl. intros [K|[]]. discriminate.
  - exact (proj1 (put_invalid_rejected (fun _ => "0.0") "u1"
                    "does-not-exist" body_no_name [ron "r1"] H)).
Defined.

(** PUT /contacts/does-not-exist with a valid body: 404; PUT on the
    identifier of a row: 200 with the row as rewritten. *)
Lemma put_unknown_or_known_witness :
  (~ present "does-not-exist" [ron "r1"] /\
   app (fun _ => "0.0") "u1" (PutContact "does-not-exist") body_A_1
     [ron "r1"]
   = (mkResponse 404 (JsonError not_found_msg), [ron "r1"])) /\
  (present "r1" [ron "r1"] /\
   exists db' c,
     app (fun _ => "0.0") "u1" (PutContact "r1") body_A_1 [ron "r1"]
     = (mkResponse 200 (JsonContact (Some c)), db') /\
     c = mkContact "r1" "A" "1" (Some "")).
Proof.
  assert (H1 : ~ present "does-not-exist" [ron "r1"]).
  { unfold present. simpl. intros [K|[]]. discriminate. }
  assert (H2 : present "r1" [ron "r1"]) by (left; reflexivity).
  split.
  - split; [exact H1|].
    destruct (put_unknown_or_known (fun _ => "0.0") "u1" "does-not-exist"
                body_A_1 [ron "r1"]) as [K _].
    exact (proj1 (K H1 eq_refl eq_refl)).
  - split; [exact H2|].
    destruct (put_unknown_or_known (fun _ => "0.0") "u1" "r1"
                body_A_1 [ron "r1"]) as [_ K].
    destruct (K H2 "A" "1" eq_refl ltac:(discriminate) eq_refl
                ltac:(discriminate) I) as (db' & c & E & _ & C & _).
    exists db', c. split; assumption.
Defined.

(** A PUT answered 200 on a table of two rows leaves the other row alone. *)
Lemma put_frame_witness :
  app (fun _ => "0.0") "u1" (PutContact "r1") body_A_1
    [ron "r1"; marine "m1"]
  = (mkResponse 200 (JsonContact (Some (mkContact "r1" "A" "1" (Some "")))),
     [mkContact "r1" "A" "1" (Some ""); marine "m1"]) /\
  Forall2 (fun old new => id new = id old /\ (id old <> "r1" -> new = old))
          [ron "r1"; marine "m1"]
          [mkContact "r1" "A" "1" (Some ""); marine "m1"].
Proof.
  assert (E : app (fun _ => "0.0") "u1" (PutContact "r1") body_A_1
                [ron "r1"; marine "m1"]
              = (mkResponse 200
                   (JsonContact (Some (mkContact "r1" "A" "1" (Some "")))),
                 [mkContact "r1" "A" "1" (Some ""); marine "m1"]))
    by reflexivity.
  split; [exact E|].
  exact (proj2 (proj2 (put_frame (fun _ => "0.0") "u1" "r1" body_A_1
                         [ron "r1"; marine "m1"] _ _ E eq_refl))).
Defined.

(** POST [{name:"A", phone:"1"}]: 201, email [""]; the same body PUT on an
    existing row: 200, email [""]. *)
Lemma email_defaults_to_empty_witness :
  (~ present "u1" [ron "r1"] /\
   app (fun _ => "0.0") "u1" PostContacts body_A_1 [ron "r1"]
   = (mkResponse 201 (JsonContact (Some (mkContact "u1" "A" "1" (Some "")))),
      [ron "r1"; mkContact "u1" "A" "1" (Some "")])) /\
  (present "r1" [ron "r1"] /\
   app (fun _ => "0.0") "u1" (PutContact "r1") body_A_1 [ron "r1"]
   = (mkResponse 200 (JsonContact (Some (mkContact "r1" "A" "1" (Some "")))),
      [mkContact "r1" "A" "1" (Some "")])).
Proof.
  assert (H1 : ~ present "u1" [ron "r1"]).
  { unfold present. simpl. intros [K|[]]. discriminate. }
  assert (H2 : present "r1" [ron "r1"]) by (left; reflexivity).
  destruct (email_defaults_to_empty (fun _ => "0.0") "u1" "r1" body_A_1
              "A" "1" [ron "r1"] eq_refl ltac:(discriminate) eq_refl
              ltac:(discriminate) eq_refl) as [K1 K2].
  split.
  - split; [exact H1 | exact (proj1 (K1 H1))].
  - split; [exact H2 | exact (proj1 (K2 H2))].
Defined.

(** POST and PUT with [email: null]: the contact returned has a NULL email. *)
Lemma email_null_is_kept_witness :
  (~ present "u1" [ron "r1"] /\
   app (fun _ => "0.0") "u1" PostContacts body_null_email [ron "r1"]
   = (mkResponse 201 (JsonContact (Some (mkContact "u1" "A" "1" None))),
      [ron "r1"; mkContact "u1" "A" "1" None])) /\
  (present "r1" [ron "r1"] /\
   app (fun _ => "0.0") "u1" (PutContact "r1") body_null_email [ron "r1"]
   = (mkResponse 200 (JsonContact (Some (mkContact "r1" "A" "1" None))),
      [mkContact "r1" "A" "1" None])).
Proof.
  assert (H1 : ~ present "u1" [ron "r1"]).
  { unfold present. simpl. intros [K|[]]. discriminate. }
  assert (H2 : present "r1" [ron "r1"]) by (left; reflexivity).
  destruct (email_null_is_kept (fun _ => "0.0") "u1" "r1" body_null_email
              "A" "1" [ron "r1"] eq_refl ltac:(discriminate) eq_refl
              ltac:(discriminate) eq_refl) as (K1 & K2 & _).
  split.
  - split; [exact H1 | exact (proj1 (K1 H1))].
  - split; [exact H2 | exact (proj1 (K2 H2))].
Defined.

(** DELETE twice on the identifier of a row: 204, then 404; DELETE on an
    unknown identifier: 404. *)
Lemma delete_then_delete_witness :
  (present "r1" [ron "r1"; marine "m1"] /\
   run_route (delete_contact "r1") [ron "r1"; marine "m1"]
   = (mkResponse 204 NoBody, [marine "m1"]) /\
   status (fst (run_route (delete_contact "r1") [marine "m1"])) = 404) /\
  (~ present "zz" [ron "r1"; marine "m1"] /\
   run_route (delete_contact "zz") [ron "r1"; marine "m1"]
   = (mkResponse 404 (JsonError not_found_msg), [ron "r1"; marine "m1"])).
Proof.
  assert (H1 : present "r1" [ron "r1"; marine "m1"]) by (left; reflexivity).
  assert (H2 : ~ present "zz" [ron "r1"; marine "m1"]).
  { unfold present. simpl. intros [K|[K|[]]]; discriminate. }
  split.
  - split; [exact H1|].
    destruct (delete_then_delete "r1" [ron "r1"; marine "m1"]) as [K _].
    destruct (K H1) as (E & _ & _ & S). split; [exact E | exact S].
  - split; [exact H2|].
    destruct (delete_then_delete "zz" [ron "r1"; marine "m1"]) as [_ K].
    exact (K H2).
Defined.

(** "Zed" then "Amy" created on the seeded table: "Amy" is listed first. *)
Lemma list_sorted_by_name_witness :
  ~ present "u1" [ron "r1"; marine "m1"] /\
  ~ present "u2" [ron "r1"; marine "m1"] /\
  "u1" <> "u2" /\
  exists zed amy l1 l2 l3,
    name zed = "Zed" /\ name amy = "Amy" /\
    fst (run_route get_contacts
           (snd (app (fun _ => "0.0") "u2" PostContacts body_amy
                   (snd (app (fun _ => "0.0") "u1" PostContacts body_zed
                           [ron "r1"; marine "m1"])))))
    = mkResponse 200 (JsonContacts (l1 ++ amy :: l2 ++ zed :: l3)).
Proof.
  assert (H1 : ~ present "u1" [ron "r1"; marine "m1"]).
  { unfold present. simpl. intros [K|[K|[]]]; discriminate. }
  assert (H2 : ~ present "u2" [ron "r1"; marine "m1"]).
  { unfold present. simpl. intros [K|[K|[]]]; discriminate. }
  assert (H3 : "u1" <> "u2") by discriminate.
  repeat (split; [assumption|]).
  destruct (list_sorted_by_name [ron "r1"; marine "m1"]) as [_ K].
  destruct (K (fun _ => "0.0") "u1" "u2" body_zed body_amy "2" "3"
              eq_refl eq_refl eq_refl eq_refl
              ltac:(discriminate) ltac:(discriminate) I I H1 H2 H3)
    as (zed & amy & l1 & l2 & l3 & _ & Hz & _ & Ha & E).
  exists zed, amy, l1, l2, l3. repeat split; assumption.
Defined.

(** First start with two distinct identifiers; a later start. *)
Lemma seeding_on_first_run_witness :
  ("r1" <> "m1" /\
   seed_contacts (fun _ => "0.0") "r1" "m1" []
   = (inr tt, [ron "r1"; marine "m1"])) /\
  ([ron "r1"] <> [] /\
   seed_contacts (fun _ => "0.0") "r1" "m1" [ron "r1"]
   = (inr tt, [ron "r1"])).
Proof.
  assert (H1 : "r1" <> "m1") by discriminate.
  assert (H2 : [ron "r1"] <> []) by discriminate.
  split.
  - split; [exact H1|].
    destruct (seeding_on_first_run (fun _ => "0.0") "r1" "m1" []) as [K _].
    exact (proj1 (K H1)).
  - split; [exact H2|].
    destruct (seeding_on_first_run (fun _ => "0.0") "r1" "m1" [ron "r1"])
      as [_ K].
    exact (K H2).
Defined.

(* ================================================================= *)
(** ** The handlers, path by path *)

Lemma app_rejected (rtt : float -> string) (uuid : string) (rt : route)
  (b : raw_body) (db : table) (r : response) :
  express_json b = inl r ->
  app rtt uuid rt b db = (mkResponse 400 ParseFailure, db).
Proof.
  intros E. unfold app. rewrite E.
  now rewrite (express_json_rejects b r E).
Qed.

Lemma post_unfold (rtt : float -> string) (uuid : string) (b : raw_body)
  (db : table) (v : jsvalue) :
  express_json b = inr v ->
  app rtt uuid PostContacts b db =
  if negb (to_boolean (field b "name")) || negb (to_boolean (field b "phone"))
  then (mkResponse 400 (JsonError required_msg), db)
  else
    match stmtAdd_run rtt uuid (field b "name") (field b "phone")
            (with_default (field b "email") (JStr "")) db with
    | (inl _, db1) => (mkResponse 500 InternalError, db1)
    | (inr _, db1) =>
        (mkResponse 201 (JsonContact (find (has_id uuid) db1)), db1)
    end.
Proof.
  intros E. unfold app. rewrite E.
  unfold run_route, post_contacts, bind, lift.
  rewrite destructure_fields. cbn [f_name f_phone f_email].
  rewrite !(express_json_field b v E).
  destruct (negb (to_boolean (field b "name"))
            || negb (to_boolean (field b "phone"))); [reflexivity|].
  destruct (stmtAdd_run rtt uuid (field b "name") (field b "phone")
              (with_default (field b "email") (JStr "")) db)
    as [[e|u] db1]; reflexivity.
Qed.

Lemma put_unfold (rtt : float -> string) (uuid i : string) (b : raw_body)
  (db : table) (v : jsvalue) :
  express_json b = inr v ->
  app rtt uuid (PutContact i) b db =
  if negb (to_boolean (field b "name")) || negb (to_boolean (field b "phone"))
  then (mkResponse 400 (JsonError required_msg), db)
  else
    match find (has_id i) db with
    | None => (mkResponse 404 (JsonError not_found_msg), db)
    | Some _ =>
        match stmtUpd_run rtt (field b "name") (field b "phone")
                (with_default (field b "email") (JStr "")) i db with
        | (inl _, db1) => (mkResponse 500 InternalError, db1)
        | (inr _, db1) =>
            (mkResponse 200 (JsonContact (find (has_id i) db1)), db1)
        end
    end.
Proof.
  intros E. unfold app. rewrite E.
  unfold run_route, put_contact, bind, lift.
  rewrite destructure_fields. cbn [f_name f_phone f_email].
  rewrite !(express_json_field b v E).
  destruct (negb (to_boolean (field b "name"))
            || negb (to_boolean (field b "phone"))); [reflexivity|].
  unfold stmtGet_get at 1.
  destruct (find (has_id i) db); [|reflexivity].
  destruct (stmtUpd_run rtt (field b "name") (field b "phone")
              (with_default (field b "email") (JStr "")) i db)
    as [[e|u] db1]; reflexivity.
Qed.

Lemma delete_unfold (i : string) (db : table) :
  run_route (delete_contact i) db =
  if existsb (has_id i) db
  then (mkResponse 204 NoBody, filter (fun r => negb (has_id i r)) db)
  else (mkResponse 404 (JsonError not_found_msg), db).
Proof.
  destruct (existsb (has_id i) db) eqn:X.
  - apply existsb_present in X.
    unfold run_route, delete_contact, bind, stmtDel_run.
    now rewrite (count_present i db X).
  - apply delete_unknown. intros K. apply existsb_present in K. congruence.
Qed.

(** A statement that throws has written nothing. *)
Lemma stmtAdd_run_throws (rtt : float -> string) (i : string)
  (n p e : jsvalue) (db db' : table) (x : exn) :
  stmtAdd_run rtt i n p e db = (inl x, db') -> db' = db.
Proof.
  unfold stmtAdd_run, bind, lift, throw.
  destruct (bind_parameters 4 [JStr i; n; p; e]) as [|vs];
    [now intros [= _ <-]|].
  destruct (text_affinity rtt (param 1 vs)); [|now intros [= _ <-]].
  destruct (text_affinity rtt (param 2 vs)); [|now intros [= _ <-]].
  destruct (existsb (has_id i) db); [now intros [= _ <-] | discriminate].
Qed.

Lemma stmtUpd_run_throws (rtt : float -> string) (n p e : jsvalue)
  (i : string) (db db' : table) (x : exn) :
  stmtUpd_run rtt n p e i db = (inl x, db') -> db' = db.
Proof.
  unfold stmtUpd_run, bind, lift.
  destruct (bind_parameters 4 [n; p; e; JStr i]) as [|vs];
    [now intros [= _ <-]|].
  destruct (existsb _ db); [|discriminate].
  destruct (text_affinity rtt (param 0 vs)); [|now intros [= _ <-]].
  destruct (text_affinity rtt (param 1 vs)); [|now intros [= _ <-]].
  discriminate.
Qed.

(** A successful insert has appended one row under an unused identifier. *)
Lemma stmtAdd_run_ok (rtt : float -> string) (i : string)
  (n p e : jsvalue) (db db' : table) (u : unit) :
  stmtAdd_run rtt i n p e db = (inr u, db') ->
  ~ present i db /\
  exists n' p' e', db' = db ++ [mkContact i n' p' e'].
Proof.
  unfold stmtAdd_run, bind, lift, throw.
  destruct (bind_parameters 4 [JStr i; n; p; e]) as [|vs]; [discriminate|].
  destruct (text_affinity rtt (param 1 vs)) as [n'|]; [|discriminate].
  destruct (text_affinity rtt (param 2 vs)) as [p'|]; [|discriminate].
  destruct (existsb (has_id i) db) eqn:X; [discriminate|].
  intros [= _ <-]. split.
  - intros K. apply existsb_present in K. congruence.
  - now exists n', p', (text_affinity rtt (param 3 vs)).
Qed.

(** An insert under an identifier already in the table throws. *)
Lemma stmtAdd_run_present (rtt : float -> string) (i : string)
  (n p e : jsvalue) (db : table) :
  present i db -> exists x, stmtAdd_run rtt i n p e db = (inl x, db).
Proof.
  intros H. apply existsb_present in H.
  unfold stmtAdd_run, bind, lift, throw.
  destruct (bind_parameters 4 [JStr i; n; p; e]) as [x|vs]; [now exists x|].
  destruct (text_affinity rtt (param 1 vs)); [|now exists SqliteError].
  destruct (text_affinity rtt (param 2 vs)); [|now exists SqliteError].
  rewrite H. now exists SqliteError.
Qed.

(** Either the table is as it was, or a writing route has answered with its
    success status. *)
Lemma app_cases (rtt : float -> string) (uuid : string) (rt : route)
  (b : raw_body) (db : table) :
  snd (app rtt uuid rt b db) = db \/
  match rt with
  | PostContacts => status (fst (app rtt uuid rt b db)) = 201
  | PutContact _ => status (fst (app rtt uuid rt b db)) = 200
  | DeleteContact _ => status (fst (app rtt uuid rt b db)) = 204
  | GetRoot | GetContacts => False
  end.
Proof.
  destruct (express_json b) as [r|v] eqn:E.
  { left. now rewrite (app_rejected rtt uuid rt b db r E). }
  destruct rt as [| | |i|i].
  - left. unfold app. now rewrite E.
  - left. unfold app. now rewrite E.
  - rewrite (post_unfold rtt uuid b db v E).
    destruct (negb _ || negb _); [now left|].
    destruct (stmtAdd_run _ _ _ _ _ db) as [[x|u] db1] eqn:A.
    + left. simpl. exact (stmtAdd_run_throws _ _ _ _ _ _ _ _ A).
    + now right.
  - rewrite (put_unfold rtt uuid i b db v E).
    destruct (negb _ || negb _); [now left|].
    destruct (find (has_id i) db); [|now left].
    destruct (stmtUpd_run _ _ _ _ _ db) as [[x|u] db1] eqn:U.
    + left. simpl. exact (stmtUpd_run_throws _ _ _ _ _ _ _ _ U).
    + now right.
  - unfold app. rewrite E, delete_unfold.
    destruct (existsb (has_id i) db); [now right | now left].
Qed.

(* ================================================================= *)
(** ** Status codes and writes *)


(** X2. The table changes only when a writing route succeeds: if the table
    after a request differs from the table before, the request was a POST
    answered 201, a PUT answered 200 or a DELETE answered 204 (the GET routes
    never write); and every answer with status 400 or above, the 500 of a
    thrown statement included, leaves the table exactly as it was. *)
Theorem store_changes_only_on_success
  (rtt : float -> string) (uuid : string) (rt : route) (b : raw_body)
  (db : table) :
  (snd (app rtt uuid rt b db) <> db ->
   match rt with
   | PostContacts => status (fst (app rtt uuid rt b db)) = 201
   | PutContact _ => status (fst (app rtt uuid rt b db)) = 200
   | DeleteContact _ => status (fst (app rtt uuid rt b db)) = 204
   | GetRoot | GetContacts => False
   end)
  /\
  (400 <= status (fst (app rtt uuid rt b db)) ->
   snd (app rtt uuid rt b db) = db).
Proof.
  destruct (app_cases rtt uuid rt b db) as [H|H].
  - split; [intros K; contradiction | intros _; exact H].
  - split; [intros _; exact H|].
    intros K. destruct rt; try contradiction; rewrite H in K; lia.
Qed.

(** X3. A POST answered 201, whatever its body, has appended exactly one row
    at the end of the table, under the identifier drawn, which no row had;
    the body of the answer is that very row, read back by [stmtGet]. *)
Theorem created_row_is_returned
  (rtt : float -> string) (uuid : string) (b : raw_body) (db : table) :
  status (fst (app rtt uuid PostContacts b db)) = 201 ->
  exists c : contact,
    app rtt uuid PostContacts b db
    = (mkResponse 201 (JsonContact (Some c)), db ++ [c]) /\
    id c = uuid /\
    ~ present uuid db /\
    stmtGet_get uuid (db ++ [c]) = (inr (Some c), db ++ [c]).
Proof.
  destruct (express_json b) as [r|v] eqn:E.
  { rewrite (app_rejected rtt uuid _ b db r E). discriminate. }
  rewrite (post_unfold rtt uuid b db v E).
  destruct (negb _ || negb _); [discriminate|].
  destruct (stmtAdd_run _ _ _ _ _ db) as [[x|u] db1] eqn:A; [discriminate|].
  intros _.
  destruct (stmtAdd_run_ok _ _ _ _ _ _ _ _ A) as (F & n' & p' & e' & ->).
  exists (mkContact uuid n' p' e').
  assert (G : find (has_id uuid) (db ++ [mkContact uuid n' p' e'])
              = Some (mkContact uuid n' p' e')).
  { now apply find_appended. }
  rewrite G. repeat split; try assumption.
  unfold stmtGet_get. now rewrite G.
Qed.

(** X4. If the identifier drawn by [uuid()] is already the identifier of a
    row, a POST with a usable name and phone is answered 500 (the primary
    key refuses the insert) and the table is unchanged: a POST never
    overwrites or duplicates an existing contact. *)
Theorem post_collision_is_500
  (rtt : float -> string) (uuid : string) (b : raw_body) (db : table) :
  present uuid db ->
  to_boolean (field b "name") = true ->
  to_boolean (field b "phone") = true ->
  app rtt uuid PostContacts b db = (mkResponse 500 InternalError, db).
Proof.
  intros H Hn Hp.
  destruct (express_json_accepts b "name") as [v E].
  { intros K. rewrite K in Hn. discriminate. }
  rewrite (post_unfold rtt uuid b db v E), Hn, Hp. cbn [negb orb].
  destruct (stmtAdd_run_present rtt uuid (field b "name") (field b "phone")
              (with_default (field b "email") (JStr "")) db H) as [x ->].
  reflexivity.
Qed.

(* ================================================================= *)
(** ** How the operations compose *)

Lemma rewrite_rows_idem (i n p : string) (e : option string) (db : table) :
  rewrite_rows i n p e (rewrite_rows i n p e db) = rewrite_rows i n p e db.
Proof.
  unfold rewrite_rows. rewrite map_map. apply map_ext. intros r.
  destruct (has_id i r) eqn:H; [|now rewrite H].
  unfold has_id in *. simpl. now rewrite H.
Qed.

(** Whether [stmtUpd.run] succeeds, and what it writes, depends on the
    arguments only, not on the rows it meets. *)
Lemma stmtUpd_run_uniform (rtt : float -> string) (n p e : jsvalue)
  (i : string) (db db1 : table) (u : unit) :
  stmtUpd_run rtt n p e i db = (inr u, db1) ->
  existsb (has_id i) db = true ->
  exists n' p' e',
    forall db2, existsb (has_id i) db2 = true ->
                stmtUpd_run rtt n p e i db2
                = (inr tt, rewrite_rows i n' p' e' db2).
Proof.
  unfold stmtUpd_run, bind, lift.
  destruct (bind_parameters 4 [n; p; e; JStr i]) as [|vs] eqn:B;
    [discriminate|].
  rewrite (bind_update_where n p e i vs B). simpl.
  change (fun r : contact => id r =? i) with (has_id i).
  intros H X. rewrite X in H.
  destruct (text_affinity rtt (param 0 vs)) as [n'|]; [|discriminate].
  destruct (text_affinity rtt (param 1 vs)) as [p'|]; [|discriminate].
  exists n', p', (text_affinity rtt (param 2 vs)).
  intros db2 X2. now rewrite X2.
Qed.

(** What a PUT answered 200 has done. *)
Lemma put_ok_inv (rtt : float -> string) (uuid i : string) (b : raw_body)
  (db db' : table) (r : response) :
  app rtt uuid (PutContact i) b db = (r, db') ->
  status r = 200 ->
  present i db /\
  exists n p e,
    r = mkResponse 200 (JsonContact (Some (mkContact i n p e))) /\
    db' = rewrite_rows i n p e db /\
    forall db2, present i db2 ->
                app rtt uuid (PutContact i) b db2
                = (mkResponse 200 (JsonContact (Some (mkContact i n p e))),
                   rewrite_rows i n p e db2).
Proof.
  destruct (express_json b) as [r0|v] eqn:E.
  { rewrite (app_rejected rtt uuid _ b db r0 E). intros [= <- _].
    discriminate. }
  rewrite (put_unfold rtt uuid i b db v E).
  destruct (negb _ || negb _) eqn:V; [intros [= <- _]; discriminate|].
  destruct (find (has_id i) db) as [r0|] eqn:F;
    [|intros [= <- _]; discriminate].
  assert (P : present i db).
  { destruct (existsb (has_id i) db) eqn:X;
      [now apply existsb_present|].
    assert (K : ~ present i db).
    { intros K. apply existsb_present in K. congruence. }
    apply find_absent in K. congruence. }
  destruct (stmtUpd_run _ _ _ _ _ db) as [[x|u] db1] eqn:U;
    [intros [= <- _]; discriminate|].
  intros [= <- <-] _. split; [exact P|].
  destruct (stmtUpd_run_uniform _ _ _ _ _ _ _ _ U
              (proj2 (existsb_present i db) P)) as (n & p & e & K).
  exists n, p, e.
  assert (D : db1 = rewrite_rows i n p e db).
  { rewrite (K db (proj2 (existsb_present i db) P)) in U.
    now injection U as <-. }
  subst db1. rewrite (find_rewritten i n p e db P).
  split; [reflexivity|]. split; [reflexivity|].
  intros db2 P2. rewrite (put_unfold rtt uuid i b db2 v E), V.
  destruct (find_present i db2 P2) as (r2 & -> & _).
  rewrite (K db2 (proj2 (existsb_present i db2) P2)).
  now rewrite (find_rewritten i n p e db2 P2).
Qed.

(** What a POST answered 201 has done. *)
Lemma post_created_inv (rtt : float -> string) (uuid : string) (b : raw_body)
  (db db' : table) (r : response) :
  app rtt uuid PostContacts b db = (r, db') ->
  status r = 201 ->
  ~ present uuid db /\
  exists n p e,
    r = mkResponse 201 (JsonContact (Some (mkContact uuid n p e))) /\
    db' = db ++ [mkContact uuid n p e].
Proof.
  destruct (express_json b) as [r0|v] eqn:E.
  { rewrite (app_rejected rtt uuid _ b db r0 E). intros [= <- _].
    discriminate. }
  rewrite (post_unfold rtt uuid b db v E).
  destruct (negb _ || negb _); [intros [= <- _]; discriminate|].
  destruct (stmtAdd_run _ _ _ _ _ db) as [[x|u] db1] eqn:A;
    [intros [= <- _]; discriminate|].
  intros [= <- <-] _.
  destruct (stmtAdd_run_ok _ _ _ _ _ _ _ _ A) as (F & n & p & e & ->).
  split; [exact F|]. exists n, p, e.
  now rewrite (find_appended uuid (mkContact uuid n p e) db eq_refl F).
Qed.

(** X5. PUT is idempotent: when a PUT is answered 200, sending the same
    request again on the table it left is answered with the same 200 and the
    same contact, and leaves that table unchanged. *)
Theorem put_idempotent
  (rtt : float -> string) (uuid uuid' i : string) (b : raw_body)
  (db db' : table) (r : response) :
  app rtt uuid (PutContact i) b db = (r, db') ->
  status r = 200 ->
  app rtt uuid' (PutContact i) b db' = (r, db').
Proof.
  intros H Hs.
  destruct (put_ok_inv rtt uuid i b db db' r H Hs)
    as (P & n & p & e & -> & -> & _).
  assert (P' : present i (rewrite_rows i n p e db)).
  { unfold present. now rewrite rewrite_rows_ids. }
  assert (H' : app rtt uuid' (PutContact i) b db
               = (mkResponse 200
                    (JsonContact (Some (mkContact i n p e))),
                  rewrite_rows i n p e db)).
  { unfold app in *. destruct (express_json b); exact H. }
  destruct (put_ok_inv rtt uuid' i b db _ _ H' eq_refl)
    as (_ & n2 & p2 & e2 & R & D & K).
  injection R as -> -> ->.
  rewrite (K _ P'). now rewrite rewrite_rows_idem.
Qed.

(** X6. Creating a contact and then deleting it restores the table: after a
    POST answered 201, DELETE on the identifier it was given is answered 204
    and leaves exactly the table there was before the POST. *)
Theorem post_then_delete_restores
  (rtt : float -> string) (uuid : string) (b : raw_body) (db : table) :
  status (fst (app rtt uuid PostContacts b db)) = 201 ->
  run_route (delete_contact uuid) (snd (app rtt uuid PostContacts b db))
  = (mkResponse 204 NoBody, db).
Proof.
  intros Hs.
  destruct (app rtt uuid PostContacts b db) as [r db'] eqn:H.
  simpl in Hs |- *.
  destruct (post_created_inv rtt uuid b db db' r H Hs)
    as (F & n & p & e & _ & ->).
  rewrite delete_unfold.
  assert (X : existsb (has_id uuid) (db ++ [mkContact uuid n p e]) = true).
  { rewrite existsb_app. simpl. unfold has_id at 2. simpl.
    rewrite String.eqb_refl. now rewrite orb_true_r. }
  rewrite X, filter_app, (remove_absent uuid db F). simpl.
  unfold has_id. simpl. rewrite String.eqb_refl. simpl.
  now rewrite app_nil_r.
Qed.

Lemma remove_unique_length (i : string) (db : table) :
  NoDup (map id db) -> present i db ->
  S (List.length (filter (fun r => negb (has_id i r)) db)) = List.length db.
Proof.
  unfold present. induction db as [|r db IH]; simpl; [tauto|].
  intros N H. apply NoDup_cons_iff in N. destruct N as [N1 N2].
  destruct (has_id i r) eqn:E; simpl.
  - apply has_id_true in E. subst i.
    now rewrite (remove_absent (id r) db N1).
  - apply has_id_false in E. f_equal. apply IH; [assumption|]. tauto.
Qed.

(** X7. On a table whose identifiers are unique, a DELETE of an identifier
    that is present removes exactly one row: the row count goes down by one,
    and every row that remains was there before. *)
Theorem delete_removes_one_row (i : string) (db : table) :
  NoDup (map id db) ->
  present i db ->
  S (List.length (snd (run_route (delete_contact i) db))) = List.length db /\
  (forall r, In r (snd (run_route (delete_contact i) db)) -> In r db) /\
  NoDup (map id (snd (run_route (delete_contact i) db))).
Proof.
  intros N H. rewrite delete_unfold.
  rewrite (proj2 (existsb_present i db) H). simpl.
  split; [now apply remove_unique_length|]. split.
  - intros r Hr. apply filter_In in Hr. tauto.
  - now apply NoDup_ids_filter.
Qed.

(** X8. The listing reflects every successful write.  After a POST answered
    201 the contact it returned is in the array GET /contacts serves; after
    a PUT answered 200 the contact it returned is in that array; after a
    DELETE answered 204 no contact of the array has the deleted
    identifier. *)
Theorem listing_reflects_writes
  (rtt : float -> string) (uuid i : string) (b : raw_body) (db : table) :
  (status (fst (app rtt uuid PostContacts b db)) = 201 ->
   exists c rows,
     body (fst (app rtt uuid PostContacts b db)) = JsonContact (Some c) /\
     run_route get_contacts (snd (app rtt uuid PostContacts b db))
     = (mkResponse 200 (JsonContacts rows),
        snd (app rtt uuid PostContacts b db)) /\
     In c rows)
  /\
  (status (fst (app rtt uuid (PutContact i) b db)) = 200 ->
   exists c rows,
     body (fst (app rtt uuid (PutContact i) b db)) = JsonContact (Some c) /\
     run_route get_contacts (snd (app rtt uuid (PutContact i) b db))
     = (mkResponse 200 (JsonContacts rows),
        snd (app rtt uuid (PutContact i) b db)) /\
     In c rows)
  /\
  (status (fst (run_route (delete_contact i) db)) = 204 ->
   exists rows,
     run_route get_contacts (snd (run_route (delete_contact i) db))
     = (mkResponse 200 (JsonContacts rows),
        snd (run_route (delete_contact i) db)) /\
     forall c, In c rows -> id c <> i).
Proof.
  split; [|split].
  - intros Hs.
    destruct (app rtt uuid PostContacts b db) as [r db'] eqn:H.
    simpl in Hs |- *.
    destruct (post_created_inv rtt uuid b db db' r H Hs)
      as (_ & n & p & e & -> & ->).
    exists (mkContact uuid n p e), (order_by_name (db ++ [mkContact uuid n p e])).
    split; [reflexivity|]. split; [reflexivity|].
    eapply Permutation_in; [apply order_by_name_perm|].
    apply in_or_app. right. now left.
  - intros Hs.
    destruct (app rtt uuid (PutContact i) b db) as [r db'] eqn:H.
    simpl in Hs |- *.
    destruct (put_ok_inv rtt uuid i b db db' r H Hs)
      as (P & n & p & e & -> & -> & _).
    exists (mkContact i n p e), (order_by_name (rewrite_rows i n p e db)).
    split; [reflexivity|]. split; [reflexivity|].
    eapply Permutation_in; [apply order_by_name_perm|].
    apply (find_some (has_id i)). now apply find_rewritten.
  - rewrite delete_unfold. destruct (existsb (has_id i) db);
      [|discriminate].
    intros _. simpl.
    exists (order_by_name (filter (fun r => negb (has_id i r)) db)).
    split; [reflexivity|]. intros c Hc.
    apply (Permutation_in _ (Permutation_sym (order_by_name_perm _))) in Hc.
    apply filter_In in Hc. destruct Hc as [_ Hc].
    now apply negb_true_iff, has_id_false in Hc.
Qed.

(* ================================================================= *)
(** ** Every reachable table *)

Lemma serve_cons (rtt : float -> string) (rq : request) (rest : list request)
  (db : table) :
  snd (serve rtt (rq :: rest) db)
  = snd (serve rtt rest
           (snd (app rtt (rq_uuid rq) (rq_route rq) (rq_body rq) db))).
Proof.
  simpl. destruct (app rtt (rq_uuid rq) (rq_route rq) (rq_body rq) db)
    as [r db1].
  simpl. now destruct (serve rtt rest db1).
Qed.

Lemma seeding_keeps_unique (rtt : float -> string) (u1 u2 : string)
  (db : table) :
  NoDup (map id db) -> NoDup (map id (snd (seed_contacts rtt u1 u2 db))).
Proof.
  intros H. destruct db as [|r db]; [|exact H].
  destruct (String.eqb_spec u1 u2) as [->|Hne].
  - rewrite seeding_collision. simpl.
    constructor; [simpl; tauto | constructor].
  - rewrite (seed_two_rows rtt u1 u2 Hne). simpl.
    constructor; [simpl; intros [K|[]]; congruence|].
    constructor; [simpl; tauto | constructor].
Qed.

(** X9. Identifiers are unique in every table the server can reach: start
    from a database file whose table, if it has one, has unique identifiers,
    run the start-up seeding, then serve any sequence of requests, with any
    bodies and any identifiers drawn by [uuid()], colliding ones included;
    no two rows of the resulting table share an identifier. *)
Theorem ids_unique_in_every_state
  (rtt : float -> string) (u1 u2 : string) (file : option table)
  (reqs : list request) :
  NoDup (map id (create_table_if_not_exists file)) ->
  NoDup (map id (snd (serve rtt reqs (snd (startup rtt u1 u2 file))))).
Proof.
  intros H. unfold startup.
  apply (seeding_keeps_unique rtt u1 u2) in H.
  revert H. generalize (snd (seed_contacts rtt u1 u2
                                (create_table_if_not_exists file))).
  induction reqs as [|rq rest IH]; intros db H; [exact H|].
  rewrite serve_cons. apply IH. now apply ids_stay_unique.
Qed.

(** X10. As long as every request carries a [name] and a [phone] that are
    absent, [null], booleans or strings, the whole invariant holds in every
    reachable table: after start-up on a file whose table, if any, satisfies
    it, and after any sequence of such requests, identifiers are unique and
    no row has an empty name or phone. *)
Theorem invariant_in_every_state
  (rtt : float -> string) (u1 u2 : string) (file : option table)
  (reqs : list request) :
  store_invariant (create_table_if_not_exists file) ->
  Forall (fun rq => textual (field (rq_body rq) "name") /\
                    textual (field (rq_body rq) "phone")) reqs ->
  store_invariant (snd (serve rtt reqs (snd (startup rtt u1 u2 file)))).
Proof.
  intros H. unfold startup.
  apply (seeding_keeps_invariant rtt u1 u2) in H.
  revert H. generalize (snd (seed_contacts rtt u1 u2
                                (create_table_if_not_exists file))).
  induction reqs as [|rq rest IH]; intros db H T; [exact H|].
  apply Forall_cons_iff in T. destruct T as [[Tn Tp] T].
  rewrite serve_cons. apply IH; [|exact T].
  now apply invariant_kept_textual.
Qed.

(** X11. Restarting the server never seeds again: whatever the first
    start-up did (two rows written, one row written before the identifiers
    collided, or nothing because the table had rows), a second start-up on
    the table it left completes without writing. *)
Theorem startup_seeds_once
  (rtt : float -> string) (u1 u2 u3 u4 : string) (file : option table) :
  startup rtt u3 u4 (Some (snd (startup rtt u1 u2 file)))
  = (inr tt, snd (startup rtt u1 u2 file)).
Proof.
  unfold startup. simpl create_table_if_not_exists at 1.
  destruct (create_table_if_not_exists file) as [|r db].
  - destruct (String.eqb_spec u1 u2) as [->|Hne].
    + now rewrite seeding_collision.
    + now rewrite (seed_two_rows rtt u1 u2 Hne).
  - reflexivity.
Qed.

(** X12. The port: [process.env.PORT || 3001] is 3001 exactly when the
    variable is unset or set to the empty string; any other setting is used
    as it is, text that is not a number included. *)
Theorem port_default (env_port : option string) :
  (PORT env_port = JNum 3001%float <->
   env_port = None \/ env_port = Some "") /\
  (forall s, env_port = Some s -> s <> "" -> PORT env_port = JStr s).
Proof.
  unfold PORT, js_or. split.
  - destruct env_port as [s|]; simpl.
    + destruct (String.eqb_spec s "") as [->|Hs]; simpl.
      * split; auto.
      * split; [discriminate|]. intros [K|K]; [discriminate|].
        injection K as ->. contradiction.
    + split; auto.
  - intros s -> Hs. simpl.
    destruct (String.eqb_spec s "") as [->|_]; [contradiction|reflexivity].
Qed.

(* ================================================================= *)
(** ** Fields of other types *)

(** A boolean among the arguments makes the binding fail. *)
Lemma bind_args_boolean (bo : bool) (args : list jsvalue) :
  In (JBool bo) args ->
  forall flag, exists x, bind_args args flag = inl x.
Proof.
  induction args as [|a args IH]; [contradiction|].
  intros [->|H] flag; [simpl; eauto|].
  destruct a as [| |b|f|s|l|l]; simpl.
  - destruct (IH H flag) as [x ->]. eauto.
  - destruct (IH H flag) as [x ->]. eauto.
  - eauto.
  - destruct (IH H flag) as [x ->]. eauto.
  - destruct (IH H flag) as [x ->]. eauto.
  - destruct (bind_array l); [eauto|].
    destruct (IH H flag) as [x ->]. eauto.
  - destruct flag; [eauto|]. exact (IH H true).
Qed.

Lemma bind_parameters_boolean (bo : bool) (n : nat) (args : list jsvalue) :
  In (JBool bo) args -> exists x, bind_parameters n args = inl x.
Proof.
  intros H. unfold bind_parameters.
  destruct (bind_args_boolean bo args H false) as [x ->]. eauto.
Qed.

(** X13. A boolean is never stored.  When [name] and [phone] pass the check
    and one of [name], [phone], [email] is a JSON boolean, a POST is
    answered 500, and so is a PUT on an existing identifier; the driver
    refuses to bind the value and the table is unchanged. *)
Theorem boolean_field_is_500
  (rtt : float -> string) (uuid i : string) (b : raw_body) (db : table)
  (k : string) (bo : bool) :
  In k ["name"; "phone"; "email"] ->
  field b k = JBool bo ->
  to_boolean (field b "name") = true ->
  to_boolean (field b "phone") = true ->
  app rtt uuid PostContacts b db = (mkResponse 500 InternalError, db) /\
  (present i db ->
   app rtt uuid (PutContact i) b db = (mkResponse 500 InternalError, db)).
Proof.
  intros Hk Hb Hn Hp.
  destruct (express_json_accepts b "name") as [v E].
  { intros K. rewrite K in Hn. discriminate. }
  assert (Hin : forall pre post,
             In (JBool bo)
                (pre ++ [field b "name"; field b "phone";
                         with_default (field b "email") (JStr "")] ++ post)).
  { intros pre post. apply in_or_app. right. apply in_or_app. left.
    destruct Hk as [<-|[<-|[<-|[]]]]; rewrite Hb; simpl; auto. }
  split.
  - rewrite (post_unfold rtt uuid b db v E), Hn, Hp. cbn [negb orb].
    unfold stmtAdd_run, bind, lift.
    destruct (bind_parameters_boolean bo 4
                [JStr uuid; field b "name"; field b "phone";
                 with_default (field b "email") (JStr "")]
                (Hin [JStr uuid] [])) as [x B].
    now rewrite B.
  - intros P. rewrite (put_unfold rtt uuid i b db v E), Hn, Hp.
    cbn [negb orb]. destruct (find_present i db P) as (r0 & -> & _).
    unfold stmtUpd_run, bind, lift.
    destruct (bind_parameters_boolean bo 4
                [field b "name"; field b "phone";
                 with_default (field b "email") (JStr ""); JStr i]
                (Hin [] [JStr i])) as [x B].
    now rewrite B.
Qed.

(** X14. An [email] given as a string is stored and returned as it is, with
    no check of its form: for a non-empty string name and phone, a POST
    with an unused identifier answers 201 with (id, name, phone, email) and
    appends that row, and a PUT on an existing identifier answers 200 with
    the row rewritten to those three fields. *)
Theorem email_string_is_kept
  (rtt : float -> string) (uuid i : string) (b : raw_body)
  (n p e : string) (db : table) :
  field b "name" = JStr n -> n <> "" ->
  field b "phone" = JStr p -> p <> "" ->
  field b "email" = JStr e ->
  (~ present uuid db ->
   app rtt uuid PostContacts b db
   = (mkResponse 201 (JsonContact (Some (mkContact uuid n p (Some e)))),
      db ++ [mkContact uuid n p (Some e)]))
  /\
  (present i db ->
   app rtt uuid (PutContact i) b db
   = (mkResponse 200 (JsonContact (Some (mkContact i n p (Some e)))),
      rewrite_rows i n p (Some e) db)).
Proof.
  intros Hname Hn Hphone Hp Hemail.
  assert (Hs : storable (field b "email")) by (rewrite Hemail; exact I).
  split.
  - intros Hfresh.
    rewrite (post_valid rtt b n p Hname Hn Hphone Hp Hs uuid db Hfresh).
    now rewrite Hemail.
  - intros Hi.
    rewrite (put_valid rtt b n p Hname Hn Hphone Hp Hs uuid i db Hi).
    now rewrite Hemail.
Qed.

(** X15. A number is accepted where text is expected.  A POST whose [phone]
    is a non-zero JSON number (name a non-empty string, email absent and the
    identifier unused) passes the check and answers 201; the row stored and
    returned holds as phone the text SQLite renders for the number, not the
    number. *)
Theorem numeric_phone_is_stored_as_text
  (rtt : float -> string) (uuid : string) (b : raw_body)
  (n : string) (f : float) (db : table) :
  field b "name" = JStr n -> n <> "" ->
  field b "phone" = JNum f -> to_boolean (JNum f) = true ->
  field b "email" = JUndefined ->
  ~ present uuid db ->
  app rtt uuid PostContacts b db
  = (mkResponse 201 (JsonContact (Some (mkContact uuid n (rtt f) (Some "")))),
     db ++ [mkContact uuid n (rtt f) (Some "")]).
Proof.
  intros Hname Hn Hphone Hf Hemail Hfresh.
  destruct (express_json_accepts b "name") as [v E].
  { rewrite Hname. discriminate. }
  rewrite (post_unfold rtt uuid b db v E), Hname, Hphone, Hemail, Hf.
  rewrite (to_boolean_str n Hn). cbn [negb orb with_default].
  unfold stmtAdd_run, bind, lift.
  rewrite (bind_four_scalars (JStr uuid) (JStr n) (JNum f) (JStr "")
             (SText uuid) (SText n) (SReal f) (SText "")); auto.
  simpl. rewrite (existsb_absent uuid db Hfresh).
  now rewrite (find_appended uuid (mkContact uuid n (rtt f) (Some "")) db
                 eq_refl Hfresh).
Qed.

(* ================================================================= *)
(** ** The further properties at concrete requests *)

Lemma store_changes_only_on_success_witness :
  (snd (app (fun _ => "0.0") "u1" PostContacts body_A_1 []) <> [] /\
   status (fst (app (fun _ => "0.0") "u1" PostContacts body_A_1 [])) = 201)
  /\
  (400 <= status (fst (app (fun _ => "0.0") "u1" (PutContact "zz")
                         body_A_1 [ron "r1"])) /\
   snd (app (fun _ => "0.0") "u1" (PutContact "zz") body_A_1 [ron "r1"])
   = [ron "r1"]).
Proof.
  split.
  - assert (H : snd (app (fun _ => "0.0") "u1" PostContacts body_A_1 [])
                <> []) by discriminate.
    split; [exact H|].
    exact (proj1 (store_changes_only_on_success (fun _ => "0.0") "u1"
                    PostContacts body_A_1 []) H).
  - assert (H : 400 <= status (fst (app (fun _ => "0.0") "u1"
                                      (PutContact "zz") body_A_1
                                      [ron "r1"]))).
    { simpl. lia. }
    split; [exact H|].
    exact (proj2 (store_changes_only_on_success (fun _ => "0.0") "u1"
                    (PutContact "zz") body_A_1 [ron "r1"]) H).
Defined.

Lemma created_row_is_returned_witness :
  status (fst (app (fun _ => "0.0") "u1" PostContacts body_A_1
                 [ron "r1"])) = 201 /\
  exists c,
    app (fun _ => "0.0") "u1" PostContacts body_A_1 [ron "r1"]
    = (mkResponse 201 (JsonContact (Some c)), [ron "r1"] ++ [c]) /\
    id c = "u1".
Proof.
  assert (H : status (fst (app (fun _ => "0.0") "u1" PostContacts body_A_1
                             [ron "r1"])) = 201) by reflexivity.
  split; [exact H|].
  destruct (created_row_is_returned (fun _ => "0.0") "u1" body_A_1
              [ron "r1"] H) as (c & E & I & _).
  exists c. split; assumption.
Defined.

Lemma post_collision_is_500_witness :
  present "r1" [ron "r1"] /\
  app (fun _ => "0.0") "r1" PostContacts body_A_1 [ron "r1"]
  = (mkResponse 500 InternalError, [ron "r1"]).
Proof.
  assert (H : present "r1" [ron "r1"]) by (left; reflexivity).
  split; [exact H|].
  exact (post_collision_is_500 (fun _ => "0.0") "r1" body_A_1 [ron "r1"]
           H eq_refl eq_refl).
Defined.

Lemma put_idempotent_witness :
  app (fun _ => "0.0") "u1" (PutContact "r1") body_A_1
    [ron "r1"; marine "m1"]
  = (mkResponse 200 (JsonContact (Some (mkContact "r1" "A" "1" (Some "")))),
     [mkContact "r1" "A" "1" (Some ""); marine "m1"]) /\
  app (fun _ => "0.0") "u2" (PutContact "r1") body_A_1
    [mkContact "r1" "A" "1" (Some ""); marine "m1"]
  = (mkResponse 200 (JsonContact (Some (mkContact "r1" "A" "1" (Some "")))),
     [mkContact "r1" "A" "1" (Some ""); marine "m1"]).
Proof.
  assert (E : app (fun _ => "0.0") "u1" (PutContact "r1") body_A_1
                [ron "r1"; marine "m1"]
              = (mkResponse 200
                   (JsonContact (Some (mkContact "r1" "A" "1" (Some "")))),
                 [mkContact "r1" "A" "1" (Some ""); marine "m1"]))
    by reflexivity.
  split; [exact E|].
  exact (put_idempotent (fun _ => "0.0") "u1" "u2" "r1" body_A_1
           [ron "r1"; marine "m1"] _ _ E eq_refl).
Defined.

Lemma post_then_delete_restores_witness :
  status (fst (app (fun _ => "0.0") "u1" PostContacts body_A_1
                 [ron "r1"])) = 201 /\
  run_route (delete_contact "u1")
    (snd (app (fun _ => "0.0") "u1" PostContacts body_A_1 [ron "r1"]))
  = (mkResponse 204 NoBody, [ron "r1"]).
Proof.
  assert (H : status (fst (app (fun _ => "0.0") "u1" PostContacts body_A_1
                             [ron "r1"])) = 201) by reflexivity.
  split; [exact H|].
  exact (post_then_delete_restores (fun _ => "0.0") "u1" body_A_1
           [ron "r1"] H).
Defined.

Lemma delete_removes_one_row_witness :
  NoDup (map id [ron "r1"; marine "m1"]) /\
  present "m1" [ron "r1"; marine "m1"] /\
  S (List.length (snd (run_route (delete_contact "m1")
                         [ron "r1"; marine "m1"]))) = 2.
Proof.
  assert (N : NoDup (map id [ron "r1"; marine "m1"])).
  { simpl. constructor; [simpl; intros [K|[]]; discriminate|].
    constructor; [simpl; tauto | constructor]. }
  assert (H : present "m1" [ron "r1"; marine "m1"]).
  { right. left. reflexivity. }
  split; [exact N|]. split; [exact H|].
  exact (proj1 (delete_removes_one_row "m1" [ron "r1"; marine "m1"] N H)).
Defined.

Lemma listing_reflects_writes_witness :
  status (fst (app (fun _ => "0.0") "u1" PostContacts body_zed
                 [ron "r1"])) = 201 /\
  status (fst (app (fun _ => "0.0") "u1" (PutContact "r1") body_zed
                 [ron "r1"])) = 200 /\
  status (fst (run_route (delete_contact "r1") [ron "r1"])) = 204 /\
  (exists c rows,
     body (fst (app (fun _ => "0.0") "u1" PostContacts body_zed [ron "r1"]))
     = JsonContact (Some c) /\
     In c rows /\ name c = "Zed") /\
  (exists rows,
     run_route get_contacts (snd (run_route (delete_contact "r1")
                                    [ron "r1"]))
     = (mkResponse 200 (JsonContacts rows),
        snd (run_route (delete_contact "r1") [ron "r1"])) /\
     forall c, In c rows -> id c <> "r1").
Proof.
  assert (H1 : status (fst (app (fun _ => "0.0") "u1" PostContacts body_zed
                              [ron "r1"])) = 201) by reflexivity.
  assert (H2 : status (fst (app (fun _ => "0.0") "u1" (PutContact "r1")
                              body_zed [ron "r1"])) = 200) by reflexivity.
  assert (H3 : status (fst (run_route (delete_contact "r1") [ron "r1"]))
               = 204) by reflexivity.
  destruct (listing_reflects_writes (fun _ => "0.0") "u1" "r1" body_zed
              [ron "r1"]) as (K1 & _ & K3).
  repeat (split; [assumption|]). split.
  - destruct (K1 H1) as (c & rows & B & _ & I).
    exists c, rows. repeat split; try assumption.
    simpl in B. injection B as <-. reflexivity.
  - exact (K3 H3).
Defined.

Lemma ids_unique_in_every_state_witness :
  NoDup (map id (create_table_if_not_exists None)) /\
  NoDup (map id (snd (serve (fun _ => "0.0")
                        [mkRequest "u1" PostContacts body_A_1;
                         mkRequest "u1" PostContacts body_zed;
                         mkRequest "u2" (PutContact "u1") body_array_name;
                         mkRequest "u3" (DeleteContact "r1") BodyAbsent]
                        (snd (startup (fun _ => "0.0") "r1" "m1" None))))).
Proof.
  assert (H : NoDup (map id (create_table_if_not_exists None)))
    by constructor.
  split; [exact H|].
  exact (ids_unique_in_every_state (fun _ => "0.0") "r1" "m1" None _ H).
Defined.

Lemma invariant_in_every_state_witness :
  store_invariant (create_table_if_not_exists None) /\
  store_invariant
    (snd (serve (fun _ => "0.0")
            [mkRequest "u1" PostContacts body_A_1;
             mkRequest "u2" (PutContact "u1") body_zed;
             mkRequest "u3" (DeleteContact "r1") BodyAbsent]
            (snd (startup (fun _ => "0.0") "r1" "m1" None)))).
Proof.
  assert (H : store_invariant (create_table_if_not_exists None))
    by (split; constructor).
  split; [exact H|].
  apply (invariant_in_every_state (fun _ => "0.0") "r1" "m1" None _ H).
  repeat constructor.
Defined.

Lemma port_default_witness :
  Some "8080" = Some "8080" /\ "8080" <> "" /\
  PORT (Some "8080") = JStr "8080".
Proof.
  assert (H : "8080" <> "") by discriminate.
  split; [reflexivity|]. split; [exact H|].
  exact (proj2 (port_default (Some "8080")) "8080" eq_refl H).
Defined.

Lemma boolean_field_is_500_witness :
  In "email" ["name"; "phone"; "email"] /\
  present "r1" [ron "r1"] /\
  app (fun _ => "0.0") "u1" PostContacts
    (BodyParsed (JObj [("name", JStr "A"); ("phone", JStr "1");
                       ("email", JBool true)])) [ron "r1"]
  = (mkResponse 500 InternalError, [ron "r1"]) /\
  app (fun _ => "0.0") "u1" (PutContact "r1")
    (BodyParsed (JObj [("name", JStr "A"); ("phone", JStr "1");
                       ("email", JBool true)])) [ron "r1"]
  = (mkResponse 500 InternalError, [ron "r1"]).
Proof.
  assert (H : In "email" ["name"; "phone"; "email"]) by (simpl; auto).
  assert (P : present "r1" [ron "r1"]) by (left; reflexivity).
  destruct (boolean_field_is_500 (fun _ => "0.0") "u1" "r1"
              (BodyParsed (JObj [("name", JStr "A"); ("phone", JStr "1");
                                 ("email", JBool true)]))
              [ron "r1"] "email" true H eq_refl eq_refl eq_refl)
    as [K1 K2].
  split; [exact H|]. split; [exact P|]. split; [exact K1 | exact (K2 P)].
Defined.

Lemma email_string_is_kept_witness :
  (~ present "u1" [ron "r1"] /\
   app (fun _ => "0.0") "u1" PostContacts
     (BodyParsed (JObj [("name", JStr "A"); ("phone", JStr "1");
                        ("email", JStr "not an address")])) [ron "r1"]
   = (mkResponse 201
        (JsonContact
           (Some (mkContact "u1" "A" "1" (Some "not an address")))),
      [ron "r1"] ++ [mkContact "u1" "A" "1" (Some "not an address")])) /\
  (present "r1" [ron "r1"] /\
   app (fun _ => "0.0") "u1" (PutContact "r1")
     (BodyParsed (JObj [("name", JStr "A"); ("phone", JStr "1");
                        ("email", JStr "not an address")])) [ron "r1"]
   = (mkResponse 200
        (JsonContact
           (Some (mkContact "r1" "A" "1" (Some "not an address")))),
      rewrite_rows "r1" "A" "1" (Some "not an address") [ron "r1"])).
Proof.
  assert (H1 : ~ present "u1" [ron "r1"]).
  { unfold present. simpl. intros [K|[]]. discriminate. }
  assert (H2 : present "r1" [ron "r1"]) by (left; reflexivity).
  destruct (email_string_is_kept (fun _ => "0.0") "u1" "r1"
              (BodyParsed (JObj [("name", JStr "A"); ("phone", JStr "1");
                                 ("email", JStr "not an address")]))
              "A" "1" "not an address" [ron "r1"]
              eq_refl ltac:(discriminate) eq_refl ltac:(discriminate)
              eq_refl) as [K1 K2].
  split.
  - split; [exact H1 | exact (K1 H1)].
  - split; [exact H2 | exact (K2 H2)].
Defined.

Lemma numeric_phone_is_stored_as_text_witness :
  to_boolean (JNum 5551234%float) = true /\
  ~ present "u1" [ron "r1"] /\
  app (fun _ => "5551234.0") "u1" PostContacts
    (BodyParsed (JObj [("name", JStr "A"); ("phone", JNum 5551234%float)]))
    [ron "r1"]
  = (mkResponse 201
       (JsonContact (Some (mkContact "u1" "A" "5551234.0" (Some "")))),
     [ron "r1"] ++ [mkContact "u1" "A" "5551234.0" (Some "")]).
Proof.
  assert (H0 : to_boolean (JNum 5551234%float) = true) by reflexivity.
  assert (H1 : ~ present "u1" [ron "r1"]).
  { unfold present. simpl. intros [K|[]]. discriminate. }
  split; [exact H0|]. split; [exact H1|].
  exact (numeric_phone_is_stored_as_text (fun _ => "5551234.0") "u1"
           (BodyParsed (JObj [("name", JStr "A");
                              ("phone", JNum 5551234%float)]))
           "A" 5551234%float [ron "r1"]
           eq_refl ltac:(discriminate) eq_refl H0 eq_refl H1).
Defined.
